(** * Verification of the Send client: login, file-list sync and transfer handlers

    Shallow embedding of [app/user.js] (class [User]) and of the transfer
    handlers of the application controller (the file that registers
    [emitter.on('upload')] and [emitter.on('download')]).

    JavaScript values are modelled by a small value type, objects by finite maps
    from property names to values, exceptions by a completion type, and the
    mutable objects ([this], the storage objects, the remote service) by an
    explicit world that every method threads through. *)

From stdpp Require Import base option list gmap strings.
From Stdlib Require Import ZArith Strings.Byte.

Local Open Scope Z_scope.
Local Open Scope string_scope.

(** ** JavaScript values *)

(** Primitive values. Numbers are integers here: no property below reads a
    fraction. *)
Inductive Prim : Type :=
  | PUndefined
  | PNull
  | PBool (b : bool)
  | PNum (z : Z)
  | PStr (s : string).

#[global] Instance Prim_eq_dec : EqDecision Prim.
Proof. solve_decision. Defined.

(** Plain objects whose properties hold primitives: [{}], [{ incoming: true }],
    a parsed JSON body, the user record. *)
Abbreviation Obj := (gmap string Prim).

(** A value that may be an object: what [response.json()] resolves to. *)
Inductive JsVal : Type :=
  | VPrim (p : Prim)
  | VObj (o : Obj).

(** [!!v] *)
Definition truthy (p : Prim) : bool :=
  match p with
  | PUndefined | PNull => false
  | PBool b => b
  | PNum z => negb (Z.eqb z 0)
  | PStr s => negb (String.eqb s "")
  end.

(** [a === b] on primitives. *)
Definition strict_eq (a b : Prim) : bool := bool_decide (a = b).

(** [o.k] on an object: a missing property reads as [undefined]. *)
Definition prop (o : Obj) (k : string) : Prim := default PUndefined (o !! k).

(** Thrown values: [new Error(message)] and the engine's [TypeError]. *)
Inductive JsError : Type :=
  | Error (msg : string)
  | TypeError (msg : string).

(** [e.message] *)
Definition message (e : JsError) : string :=
  match e with Error m | TypeError m => m end.

(** How an evaluation ends: with a value or with a thrown error. *)
Inductive Completion (A : Type) : Type :=
  | Normal (a : A)
  | Throw (e : JsError).
Arguments Normal {A} a.
Arguments Throw {A} e.

(** [v.k] on any value: reading a property of [null] or [undefined] throws. *)
Definition get_prop (v : JsVal) (k : string) : Completion Prim :=
  match v with
  | VObj o => Normal (prop o k)
  | VPrim PUndefined | VPrim PNull => Throw (TypeError "Cannot read properties")
  | VPrim _ => Normal PUndefined
  end.

(** [v.k = x] in a module (strict mode): only an object takes the property. *)
Definition set_prop (v : JsVal) (k : string) (x : Prim) : Completion Obj :=
  match v with
  | VObj o => Normal (<[k := x]> o)
  | VPrim PUndefined | VPrim PNull => Throw (TypeError "Cannot set properties")
  | VPrim _ => Throw (TypeError "Cannot create property")
  end.

Abbreviation Bytes := (list byte).

(** ** Data model *)

(** A file the user uploaded, as kept in the local list and in the manifest. *)
Record OwnedFile : Type := {
  fileId : string;
  fileName : string;
  fileUrl : string;
  fileSize : Z;
  fileTime : Z;
  expiresAt : Z;
  dlimit : Z;
  ownerToken : string;
  fileType : Prim
}.

#[global] Instance OwnedFile_eq_dec : EqDecision OwnedFile.
Proof. solve_decision. Defined.

(** Modelled from the spec: the local persisted state ([app/storage.js] is not
    part of the sources). It exposes [get/set/remove(key)] over a key-value
    engine holding strings, the persisted [user] record ([null] when none was
    saved), the list [files], [clearLocalFiles()] and [merge(list)]. *)
Record Storage : Type := {
  engine : gmap string string;
  user : option Obj;
  files : list OwnedFile;
  totalUploads : Z;
  totalDownloads : Z
}.

(** Modelled from the spec: [storage.get(key)]; a missing key reads as [null]. *)
Definition Storage_get (k : string) (s : Storage) : Prim :=
  match engine s !! k with
  | Some v => PStr v
  | None => PNull
  end.

(** Modelled from the spec: [storage.remove(key)]. *)
Definition Storage_remove (k : string) (s : Storage) : Storage :=
  {| engine := delete k (engine s); user := user s; files := files s;
     totalUploads := totalUploads s; totalDownloads := totalDownloads s |}.

(** Modelled from the spec: [storage.set(key, value)]. *)
Definition Storage_set (k v : string) (s : Storage) : Storage :=
  {| engine := <[k := v]> (engine s); user := user s; files := files s;
     totalUploads := totalUploads s; totalDownloads := totalDownloads s |}.

(** Modelled from the spec: the setter [storage.user = info]. *)
Definition Storage_set_user (d : Obj) (s : Storage) : Storage :=
  {| engine := engine s; user := Some d; files := files s;
     totalUploads := totalUploads s; totalDownloads := totalDownloads s |}.

(** Modelled from the spec: [storage.clearLocalFiles()] empties the local list. *)
Definition Storage_clearLocalFiles (s : Storage) : Storage :=
  {| engine := engine s; user := user s; files := [];
     totalUploads := totalUploads s; totalDownloads := totalDownloads s |}.

(** Modelled from the spec: [storage.addFile(file)]. *)
Definition Storage_addFile (f : OwnedFile) (s : Storage) : Storage :=
  {| engine := engine s; user := user s; files := files s ++ [f];
     totalUploads := totalUploads s; totalDownloads := totalDownloads s |}.

(** Storage objects live in a heap so that two references to one object read
    each other's writes. *)
Abbreviation Loc := nat.

Definition heap_upd (h : Loc → Storage) (l : Loc) (s : Storage) : Loc → Storage :=
  fun l' => if Nat.eqb l l' then s else h l'.

(** The object that [import storage from './storage'] binds in [user.js]. *)
Definition module_storage : Loc := 0%nat.

(** A [User] instance: [this.storage] (a reference) and [this.data]. [this.data]
    is an object from the constructor on ([storage.user || {}]) and after every
    use of the [info] setter. *)
Record User : Type := {
  this_storage : Loc;
  this_data : Obj
}.

(** Requests the client sends with [fetch]. *)
Inductive Request : Type :=
  | Post (url : string) (body : list (string * Prim))
  | Get (url : string) (bearer : Prim).

Record Response : Type := {
  status : Z;
  body : string
}.


(** Calls that leave the client, in the order they were made. *)
Inductive NetEvent : Type :=
  | NetFetch (req : Request)
  | NetGetFileList (token : Prim)
  | NetSetFileList (token : Prim) (data : Bytes)
  | NetUpload (token : Prim)
  | NetDownload.

(** The global [AUTH_CONFIG]. *)
Record AuthConfig : Type := {
  client_id : string;
  token_endpoint : string;
  userinfo_endpoint : string
}.

(** A byte stream, seen through what reading it to its end gives. *)
Abbreviation Stream := (Completion Bytes).

(** [streamToArrayBuffer(stream)] of [./utils]: read the stream to its end. *)
Definition streamToArrayBuffer (s : Stream) : Completion Bytes := s.

(** ** A monad for method bodies: state passing with exceptions *)

Definition M (S A : Type) : Type := S → Completion A * S.

Definition ret {S A} (a : A) : M S A := fun s => (Normal a, s).

(** [throw e] *)
Definition throw {S A} (e : JsError) : M S A := fun s => (Throw e, s).

Definition bind {S A B} (m : M S A) (k : A → M S B) : M S B :=
  fun s =>
    match m s with
    | (Normal a, s') => k a s'
    | (Throw e, s') => (Throw e, s')
    end.

(** [try { m } catch (e) { h e }] *)
Definition try_catch {S A} (m : M S A) (h : JsError → M S A) : M S A :=
  fun s =>
    match m s with
    | (Normal a, s') => (Normal a, s')
    | (Throw e, s') => h e s'
    end.

(** [try { m } finally { f }]: [f] runs however [m] ends, and an error of [f]
    replaces the outcome of [m]. *)
Definition try_finally {S A} (m : M S A) (f : M S unit) : M S A :=
  fun s =>
    let '(r, s') := m s in
    match f s' with
    | (Normal _, s'') => (r, s'')
    | (Throw e, s'') => (Throw e, s'')
    end.

(** A pure evaluation that may throw. *)
Definition lift {S A} (c : Completion A) : M S A := fun s => (c, s).

#[global] Instance M_ret {S} : MRet (M S) := fun A a => ret a.
#[global] Instance M_bind {S} : MBind (M S) := fun A B k m => bind m k.

(** The state that the methods of [User] run in. [Ext] is the state of
    everything outside the client: the remote services and the network. *)
Record World (Ext : Type) : Type := {
  heap : Loc → Storage;
  this : User;
  ext : Ext;
  net : list NetEvent
}.
Arguments heap {Ext} w l.
Arguments this {Ext} w.
Arguments ext {Ext} w.
Arguments net {Ext} w.

(** The collaborators that [user.js] imports or finds as globals. Their code
    is not part of the sources; each is a parameter, named as in the source. *)
Record Env (Ext : Type) : Type := {
  AUTH_CONFIG : AuthConfig;
  (** the global [fetch] *)
  fetch : Request → Ext → Completion Response * Ext;
  (** [response.json()] *)
  json : Response → Completion JsVal;
  (** [getFileListKey(storage, keys_jwe)] of [./fxa]; it is handed the storage
      object and may write to it *)
  getFileListKey : Storage → Prim → Completion Prim * Storage;
  (** [getFileList(bearerToken)] and [setFileList(bearerToken, data)] of [./api] *)
  getFileList : Prim → Ext → Completion Bytes * Ext;
  setFileList : Prim → Bytes → Ext → Completion unit * Ext;
  (** [blobStream] of [./streams], [b64ToArray] of [./utils] *)
  blobStream : Bytes → Completion Stream;
  b64ToArray : Prim → Completion Bytes;
  (** [decryptStream] and [encryptStream] of [./ece] *)
  decryptStream : Stream → Bytes → Completion Stream;
  encryptStream : Stream → Bytes → Completion Stream;
  (** [textDecoder.decode], [textEncoder.encode] *)
  textDecoder_decode : Bytes → string;
  textEncoder_encode : string → Bytes;
  (** [JSON.parse] of a manifest, [JSON.stringify] of the file list *)
  JSON_parse : string → Completion (list OwnedFile);
  JSON_stringify : list OwnedFile → Completion string;
  (** [storage.merge(list)]; [None] is the call without an argument *)
  merge : option (list OwnedFile) → Storage → Obj * Storage
}.
Arguments AUTH_CONFIG {Ext} e.
Arguments fetch {Ext} e.
Arguments json {Ext} e.
Arguments getFileListKey {Ext} e.
Arguments getFileList {Ext} e.
Arguments setFileList {Ext} e.
Arguments blobStream {Ext} e.
Arguments b64ToArray {Ext} e.
Arguments decryptStream {Ext} e.
Arguments encryptStream {Ext} e.
Arguments textDecoder_decode {Ext} e.
Arguments textEncoder_encode {Ext} e.
Arguments JSON_parse {Ext} e.
Arguments JSON_stringify {Ext} e.
Arguments merge {Ext} e.

(** ** [app/user.js]: class [User] *)

Section UserMethods.

Context {Ext : Type} (E : Env Ext).

Local Abbreviation Js := (M (World Ext)).

(** [constructor(storage) { this.storage = storage; this.data = storage.user || {}; }] *)
Definition User_new (h : Loc → Storage) (l : Loc) : User :=
  {| this_storage := l; this_data := default ∅ (user (h l)) |}.

(** [o.get(key)] on the storage object at [l]. *)
Definition storage_get (l : Loc) (k : string) : Js Prim :=
  fun w => (Normal (Storage_get k (heap w l)), w).

(** Run a storage method that updates the object at [l] in place. *)
Definition storage_update (l : Loc) (f : Storage → Storage) : Js unit :=
  fun w =>
    (Normal tt,
     {| heap := heap_upd (heap w) l (f (heap w l));
        this := this w; ext := ext w; net := net w |}).

(** [o.remove(key)] *)
Definition storage_remove (l : Loc) (k : string) : Js unit :=
  storage_update l (Storage_remove k).

(** [this.storage] *)
Definition thisStorage : Js Loc := fun w => (Normal (this_storage (this w)), w).

(** [get info() { return this.data || this.storage.user || {}; }]: [this.data]
    is an object, hence truthy, and the getter returns it. *)
Definition info : Js Obj := fun w => (Normal (this_data (this w)), w).

(** [set info(data) { this.data = data; this.storage.user = data; }] *)
Definition set_info (d : Obj) : Js unit :=
  fun w =>
    let l := this_storage (this w) in
    (Normal tt,
     {| heap := heap_upd (heap w) l (Storage_set_user d (heap w l));
        this := {| this_storage := l; this_data := d |};
        ext := ext w; net := net w |}).

(** [get loggedIn() { return !!this.info.access_token; }] *)
Definition loggedIn : Js bool :=
  i ← info; mret (truthy (prop i "access_token")).

(** [get bearerToken() { return this.info.access_token; }] *)
Definition bearerToken : Js Prim :=
  i ← info; mret (prop i "access_token").

(** A call that leaves the client: it is recorded, and the outside answers. *)
Definition external {A} (ev : NetEvent) (f : Ext → Completion A * Ext) : Js A :=
  fun w =>
    let '(r, x) := f (ext w) in
    (r, {| heap := heap w; this := this w; ext := x; net := net w ++ [ev] |}).

(** [await fetch(url, options)] *)
Definition do_fetch (req : Request) : Js Response :=
  external (NetFetch req) (fetch E req).

(** [await getFileListKey(this.storage, keys_jwe)]: the callee works on the
    storage object itself. *)
Definition do_getFileListKey (l : Loc) (keys_jwe : Prim) : Js Prim :=
  fun w =>
    let '(r, s) := getFileListKey E (heap w l) keys_jwe in
    (r, {| heap := heap_upd (heap w) l s;
           this := this w; ext := ext w; net := net w |}).

(** [async finishLogin(code, state)] *)
Definition finishLogin (code state : Prim) : Js unit :=
  localState ← storage_get module_storage "oauthState";
  storage_remove module_storage "oauthState";;
  if negb (strict_eq state localState) then throw (Error "state mismatch")
  else
    l ← thisStorage;
    code_verifier ← storage_get l "pkceVerifier";
    tokenResponse ← do_fetch
      (Post (token_endpoint (AUTH_CONFIG E))
         [("code", code);
          ("client_id", PStr (client_id (AUTH_CONFIG E)));
          ("code_verifier", code_verifier)]);
    auth ← lift (json E tokenResponse);
    access_token ← lift (get_prop auth "access_token");
    infoResponse ← do_fetch (Get (userinfo_endpoint (AUTH_CONFIG E)) access_token);
    userInfo ← lift (json E infoResponse);
    access_token ← lift (get_prop auth "access_token");
    userInfo ← lift (set_prop userInfo "access_token" access_token);
    keys_jwe ← lift (get_prop auth "keys_jwe");
    l ← thisStorage;
    fileListKey ← do_getFileListKey l keys_jwe;
    set_info (<["fileListKey" := fileListKey]> userInfo);;
    l ← thisStorage;
    storage_remove l "pkceVerifier".

(** [logout() { this.storage.clearLocalFiles(); this.info = {}; }] *)
Definition logout : Js unit :=
  l ← thisStorage;
  storage_update l Storage_clearLocalFiles;;
  set_info ∅.

(** [await this.storage.merge(list)] *)
Definition storage_merge (list : option (list OwnedFile)) : Js Obj :=
  fun w =>
    let l := this_storage (this w) in
    let '(changes, s) := merge E list (heap w l) in
    (Normal changes,
     {| heap := heap_upd (heap w) l s;
        this := this w; ext := ext w; net := net w |}).

(** [this.storage.files] *)
Definition storage_files : Js (list OwnedFile) :=
  fun w => (Normal (files (heap w (this_storage (this w)))), w).

(** The body of the first [try] of [syncFileList]: fetch the manifest,
    decrypt it with the file-list key, parse it. *)
Definition fetchManifest : Js (list OwnedFile) :=
  token ← bearerToken;
  encrypted ← external (NetGetFileList token) (getFileList E token);
  source ← lift (blobStream E encrypted);
  i ← info;
  key ← lift (b64ToArray E (prop i "fileListKey"));
  plain ← lift (decryptStream E source key);
  decrypted ← lift (streamToArrayBuffer plain);
  lift (JSON_parse E (textDecoder_decode E decrypted)).

(** The body of the second [try]: serialize the local list, encrypt it with
    the file-list key, upload it. *)
Definition uploadManifest : Js unit :=
  fs ← storage_files;
  text ← lift (JSON_stringify E fs);
  let blob := textEncoder_encode E text in
  source ← lift (blobStream E blob);
  i ← info;
  key ← lift (b64ToArray E (prop i "fileListKey"));
  cipher ← lift (encryptStream E source key);
  encrypted ← lift (streamToArrayBuffer cipher);
  token ← bearerToken;
  external (NetSetFileList token encrypted) (setFileList E token encrypted).

(** The object literal [{ incoming: true }]. *)
Definition incoming_only : Obj := {["incoming" := PBool true]}.

(** [async syncFileList()]. The first [try] either leaves with a value
    ([inl], the [return] inside [catch]) or goes on with a list ([inr]). *)
Definition syncFileList : Js Obj :=
  li ← loggedIn;
  if negb li then storage_merge None
  else
    step ← try_catch
      (list ← fetchManifest; mret (inr list))
      (fun e =>
         if String.eqb (message e) "401"
         then logout;; mret (inl incoming_only)
         else mret (inr []));
    match step with
    | inl result => mret result
    | inr list =>
        changes ← storage_merge (Some list);
        if negb (truthy (prop changes "outgoing")) then mret changes
        else
          try_catch uploadManifest (fun _ => mret tt);;
          mret changes
    end.

End UserMethods.

(** ** The application controller: the transfer handlers *)

(** [state.archive]: the files picked for upload and the optional password. *)
Record Archive : Type := {
  archiveFiles : list string;
  password : Prim
}.

(** [archive.clear()] *)
Definition Archive_clear (a : Archive) : Archive :=
  {| archiveFiles := []; password := PNull |}.

(** The dialogs a handler can put in [state.modal]. *)
Inductive Modal : Type :=
  | okDialog (text : string)
  | copyDialog (name url : string)
  | signupDialog (source : string).

(** [state.transfer]: a [FileSender] or a [FileReceiver]. *)
Inductive Transfer : Type :=
  | Sender
  | Receiver.

(** The file reference handed to the download handler. *)
Record FileInfo : Type := {
  size : Z;
  ttl : Z
}.

(** Calls into [./metrics]. *)
Inductive MetricCall : Type :=
  | startedUpload (a : Archive)
  | completedUpload (a : Archive)
  | cancelledUpload (a : Archive)
  | stoppedUpload (a : Archive) (err : JsError)
  | startedDownload (size ttl : Z)
  | completedDownload (size : Z)
  | stoppedDownload (size : Z) (err : JsError).

(** What a handler does to the page, to telemetry and to the console. *)
Inductive UiEvent : Type :=
  | Render
  | PushState (path : string)
  | EmitPassword (password : Prim) (file : OwnedFile)
  | Metric (m : MetricCall)
  | RavenCapture (err : JsError)
  | ConsoleError (err : JsError)
  | TransferReset.

(** The [state] object of the application. [world] holds [state.user] with the
    storage objects; [state_storage] is the reference [state.storage]. *)
Record AppState (Ext : Type) : Type := {
  world : World Ext;
  state_storage : Loc;
  archive : Archive;
  transfer : option Transfer;
  uploading : bool;
  modal : option Modal;
  streamDownload : bool;
  log : list UiEvent
}.
Arguments world {Ext} a.
Arguments state_storage {Ext} a.
Arguments archive {Ext} a.
Arguments transfer {Ext} a.
Arguments uploading {Ext} a.
Arguments modal {Ext} a.
Arguments streamDownload {Ext} a.
Arguments log {Ext} a.

(** What the controller imports or finds as globals, besides [User]. *)
Record AppEnv (Ext : Type) : Type := {
  userEnv : Env Ext;
  (** [LIMITS.MAX_ARCHIVES_PER_USER] *)
  MAX_ARCHIVES_PER_USER : nat;
  (** [sender.upload(archive, bearerToken)] of [./fileSender] *)
  upload : Archive → Prim → Ext → Completion OwnedFile * Ext;
  (** [receiver.download({ stream })] of [./fileReceiver] *)
  download : bool → Ext → Completion unit * Ext
}.
Arguments userEnv {Ext} a.
Arguments MAX_ARCHIVES_PER_USER {Ext} a.
Arguments upload {Ext} a.
Arguments download {Ext} a.

Section Controller.

Context {Ext : Type} (A : AppEnv Ext).

Local Abbreviation H := (M (AppState Ext)).

(** Run a method of [state.user], or a storage method, inside a handler. *)
Definition in_world {T} (m : M (World Ext) T) : H T :=
  fun st =>
    let '(r, w) := m (world st) in
    (r, {| world := w; state_storage := state_storage st;
           archive := archive st; transfer := transfer st;
           uploading := uploading st; modal := modal st;
           streamDownload := streamDownload st; log := log st |}).

(** Record a call to the page, to telemetry or to the console. *)
Definition emit (ev : UiEvent) : H unit :=
  fun st =>
    (Normal tt,
     {| world := world st; state_storage := state_storage st;
        archive := archive st; transfer := transfer st;
        uploading := uploading st; modal := modal st;
        streamDownload := streamDownload st; log := log st ++ [ev] |}).

(** [function render() { emitter.emit('render'); }] *)
Definition render : H unit := emit Render.

(** [state.modal = d] *)
Definition set_modal (d : Modal) : H unit :=
  fun st =>
    (Normal tt,
     {| world := world st; state_storage := state_storage st;
        archive := archive st; transfer := transfer st;
        uploading := uploading st; modal := Some d;
        streamDownload := streamDownload st; log := log st |}).

(** [state.transfer = t; state.uploading = u] *)
Definition set_transfer (t : option Transfer) (u : bool) : H unit :=
  fun st =>
    (Normal tt,
     {| world := world st; state_storage := state_storage st;
        archive := archive st; transfer := t;
        uploading := u; modal := modal st;
        streamDownload := streamDownload st; log := log st |}).

(** [state.transfer = null], leaving [state.uploading] as it is. *)
Definition clear_transfer : H unit :=
  fun st => set_transfer None (uploading st) st.

(** [archive.clear()] on [state.archive] *)
Definition clear_archive : H unit :=
  fun st =>
    (Normal tt,
     {| world := world st; state_storage := state_storage st;
        archive := Archive_clear (archive st); transfer := transfer st;
        uploading := uploading st; modal := modal st;
        streamDownload := streamDownload st; log := log st |}).

Definition get_state : H (AppState Ext) := fun st => (Normal st, st).

(** [state.storage.totalUploads += 1] *)
Definition bump_totalUploads (s : Storage) : Storage :=
  {| engine := engine s; user := user s; files := files s;
     totalUploads := totalUploads s + 1; totalDownloads := totalDownloads s |}.

(** [state.storage.totalDownloads += 1] *)
Definition bump_totalDownloads (s : Storage) : Storage :=
  {| engine := engine s; user := user s; files := files s;
     totalUploads := totalUploads s; totalDownloads := totalDownloads s + 1 |}.

(** [ownedFile.type = type] *)
Definition set_type (f : OwnedFile) (type : Prim) : OwnedFile :=
  {| fileId := fileId f; fileName := fileName f; fileUrl := fileUrl f;
     fileSize := fileSize f; fileTime := fileTime f; expiresAt := expiresAt f;
     dlimit := dlimit f; ownerToken := ownerToken f; fileType := type |}.

(** The [try] block of the upload handler. *)
Definition upload_try (a : Archive) (type : Prim) : H unit :=
  emit (Metric (startedUpload a));;
  token ← in_world bearerToken;
  ownedFile ← in_world (external (NetUpload token) (upload A a token));
  let ownedFile := set_type ownedFile type in
  st ← get_state;
  in_world (storage_update (state_storage st) bump_totalUploads);;
  emit (Metric (completedUpload a));;
  in_world (storage_update (state_storage st) (Storage_addFile ownedFile));;
  (if truthy (password a)
   then emit (EmitPassword (password a) ownedFile)
   else mret tt);;
  set_modal (copyDialog (fileName ownedFile) (fileUrl ownedFile)).

(** The [catch] block of the upload handler. *)
Definition upload_catch (a : Archive) (err : JsError) : H unit :=
  if String.eqb (message err) "0"
  then
    emit (Metric (cancelledUpload a));;
    render
  else
    emit (ConsoleError err);;
    emit (RavenCapture err);;
    emit (Metric (stoppedUpload a err));;
    emit (PushState "/error").

(** The [finally] block of the upload handler. *)
Definition upload_finally : H unit :=
  clear_archive;;
  set_transfer None false;;
  in_world (syncFileList (userEnv A));;
  render.

(** [emitter.on('upload', async ({ type }) => { ... })]. The pause
    [await delay(200)] and the link-target toggling are not modelled. *)
Definition on_upload (type : Prim) : H unit :=
  st ← get_state;
  if (MAX_ARCHIVES_PER_USER A <=? length (files (heap (world st) (state_storage st))))%nat
  then
    set_modal (okDialog "tooManyArchives");;
    render
  else
    let a := archive st in
    set_transfer (Some Sender) true;;
    render;;
    try_finally
      (try_catch (upload_try a type) (upload_catch a))
      upload_finally.

(** The [try] block of the download handler. The call to [download] returns a
    promise at once; its outcome arrives at [await dl], after [render()]. *)
Definition download_try (file : FileInfo) : H unit :=
  emit (Metric (startedDownload (size file) (ttl file)));;
  st ← get_state;
  match transfer st with
  | None => throw (TypeError "Cannot read properties")
  | Some _ =>
      render;;
      in_world (external NetDownload (download A (streamDownload st)));;
      st ← get_state;
      in_world (storage_update (state_storage st) bump_totalDownloads);;
      emit (Metric (completedDownload (size file)))
  end.

(** The [catch] block of the download handler. *)
Definition download_catch (file : FileInfo) (err : JsError) : H unit :=
  if String.eqb (message err) "0"
  then
    emit TransferReset;;
    render
  else
    emit (ConsoleError err);;
    clear_transfer;;
    let location := if String.eqb (message err) "404" then "/404" else "/error" in
    (if String.eqb location "/error"
     then
       emit (RavenCapture err);;
       emit (Metric (stoppedDownload (size file) err))
     else mret tt);;
    emit (PushState location).

(** [emitter.on('download', async file => { ... })]. The handler first
    subscribes to [state.transfer], which throws when there is none. *)
Definition on_download (file : FileInfo) : H unit :=
  st ← get_state;
  match transfer st with
  | None => throw (TypeError "Cannot read properties")
  | Some _ =>
      try_finally
        (try_catch (download_try file) (download_catch file))
        (mret tt)
  end.

End Controller.

(** ** Vocabulary of the statements *)

Section Vocabulary.

Context {Ext : Type} (E : Env Ext).

(** The value of [this.loggedIn] in a world. *)
Definition is_loggedIn (w : World Ext) : bool :=
  truthy (prop (this_data (this w)) "access_token").

(** The session's local store: the object behind [this.storage]. *)
Definition local_store (w : World Ext) : Storage :=
  heap w (this_storage (this w)).

(** [!!changes.outgoing] *)
Definition outgoing (changes : Obj) : bool := truthy (prop changes "outgoing").

(** The result carries the three flags as booleans. *)
Definition has_three_flags (changes : Obj) : Prop :=
  ∃ i o d : bool,
    changes !! "incoming" = Some (PBool i) ∧
    changes !! "outgoing" = Some (PBool o) ∧
    changes !! "downloadCount" = Some (PBool d).

(** What [syncFileList] hands to [merge] in a world: [None] when it leaves
    through the 401 branch without merging, [Some None] for the call without
    an argument, [Some (Some list)] otherwise. *)
Definition merge_input (w : World Ext) : option (option (list OwnedFile)) :=
  if negb (is_loggedIn w) then Some None
  else
    match fetchManifest E w with
    | (Normal list, _) => Some (Some list)
    | (Throw e, _) => if String.eqb (message e) "401" then None else Some (Some [])
    end.

(** The world in which [merge] runs: the fetch has changed the outside only. *)
Definition after_fetch (w : World Ext) : World Ext :=
  if negb (is_loggedIn w) then w else (fetchManifest E w).2.

(** The first [try] of [syncFileList] fails with a 401 in a logged-in session. *)
Definition fails_with_401 (w : World Ext) : Prop :=
  is_loggedIn w = true ∧
  ∃ e w1, fetchManifest E w = (Throw e, w1) ∧ message e = "401".

(** The world once [merge] has left the local store as [s]. *)
Definition with_local_store (w : World Ext) (s : Storage) : World Ext :=
  {| heap := heap_upd (heap w) (this_storage (this w)) s;
     this := this w; ext := ext w; net := net w |}.

(** The world after the second [try] of [syncFileList], whose [catch] is empty. *)
Definition after_upload (w : World Ext) : World Ext :=
  (try_catch (uploadManifest E) (fun _ => mret tt) w).2.

(** [merge] leaves the persisted user record alone. *)
Definition merge_keeps_user : Prop :=
  ∀ l s, user (merge E l s).2 = user s.

(** [merge] returns the three flags. *)
Definition merge_returns_flags : Prop :=
  ∀ l s, has_three_flags (merge E l s).1.

(** Merge contract, first half: once a merge reported nothing outgoing, merging
    the same remote list again changes nothing and reports nothing outgoing. *)
Definition merge_quiet_stable : Prop :=
  ∀ l s c1 s1,
    merge E l s = (c1, s1) → outgoing c1 = false →
    ∃ c2, merge E l s1 = (c2, s1) ∧ outgoing c2 = false.

(** Merge contract, second half: a store that was just merged, merged with its
    own file list, is unchanged and has nothing outgoing. *)
Definition merge_own_list : Prop :=
  ∀ l s c1 s1,
    merge E l s = (c1, s1) →
    ∃ c2, merge E (Some (files s1)) s1 = (c2, s1) ∧ outgoing c2 = false.

(** The reading of [outgoing] in the spec's merge example: it is reported
    whenever the merged local list holds an entry that the remote list lacks. *)
Definition merge_reports_missing : Prop :=
  ∀ l s f,
    f ∈ files (merge E l s).2 →
    fileId f ∉ map fileId (default [] l) →
    outgoing (merge E l s).1 = true.

(** The stronger demand that merging any remote list a second time reports
    nothing outgoing. *)
Definition merge_rerun_quiet : Prop :=
  ∀ l s c1 s1,
    merge E l s = (c1, s1) →
    ∃ c2, merge E l s1 = (c2, s1) ∧ outgoing c2 = false.

(** The merge contract: a store in step with the remote list stays so. It
    does not ask that re-merging a stale remote list reports nothing outgoing:
    in the spec's merge example the remote list lacks a local entry, and
    that is what [outgoing] reports, until an upload has brought it there. *)
Definition merge_contract : Prop := merge_quiet_stable ∧ merge_own_list.

(** [getFileListKey] does not write the storage entry [k]. *)
Definition getFileListKey_keeps (k : string) : Prop :=
  ∀ s jwe, engine (getFileListKey E s jwe).2 !! k = engine s !! k.

(** [triple P m Q R]: started in a world of [P], [m] returns [a] in a world
    of [Q a], or throws [e] in a world of [R e]. *)
Definition triple {A} (P : World Ext → Prop) (m : M (World Ext) A)
    (Q : A → World Ext → Prop) (R : JsError → World Ext → Prop) : Prop :=
  ∀ w, P w →
    match m w with
    | (Normal a, w') => Q a w'
    | (Throw e, w') => R e w'
    end.

(** [m] keeps the invariant [I], however it ends. *)
Definition stable {A} (I : World Ext → Prop) (m : M (World Ext) A) : Prop :=
  triple I m (λ _, I) (λ _, I).

(** [I] reads the storage objects and [this] only, not the outside. *)
Definition client_only (I : World Ext → Prop) : Prop :=
  ∀ w w', heap w' = heap w → this w' = this w → I w → I w'.

(** The storage object at [l] holds [v] under the key [k]. *)
Definition entry_is (l : Loc) (k : string) (v : option string) (w : World Ext) : Prop :=
  engine (heap w l) !! k = v.

(** [this.storage] is the object at [l]. *)
Definition storage_is (l : Loc) (w : World Ext) : Prop :=
  this_storage (this w) = l.

(** Sync idempotence as claimed, at one world: under the merge contract, a
    second call right after the first reports nothing outgoing and leaves the
    local store and the session as the first call left them. *)
Definition sync_idempotent_at (w : World Ext) : Prop :=
  merge_contract →
  ∀ r1 w1 r2 w2,
    syncFileList E w = (r1, w1) →
    syncFileList E w1 = (Normal r2, w2) →
    outgoing r2 = false ∧ local_store w2 = local_store w1 ∧ this w2 = this w1.

End Vocabulary.

(** Events that report a failure: to error tracking, to the failure metrics,
    or by routing the page to an error view. *)
Definition reports_failure (ev : UiEvent) : bool :=
  match ev with
  | RavenCapture _ => true
  | Metric (stoppedUpload _ _) | Metric (stoppedDownload _ _) => true
  | PushState _ => true
  | _ => false
  end.

(** No event of the list reports a failure. *)
Definition quiet (evs : list UiEvent) : Prop :=
  Forall (fun ev => reports_failure ev = false) evs.

(** What the upload handler leaves in the log when the upload is cancelled. *)
Definition cancelled_upload_log (a : Archive) : list UiEvent :=
  [Render; Metric (startedUpload a); Metric (cancelledUpload a); Render; Render].

(** What the download handler leaves in the log when the download is cancelled. *)
Definition cancelled_download_log (file : FileInfo) : list UiEvent :=
  [Metric (startedDownload (size file) (ttl file)); Render; TransferReset; Render].

(** The pipeline that [uploadManifest] sends through before the request:
    the ciphertext of the serialized list, when every stage succeeds. *)
Definition manifest_ciphertext {Ext} (E : Env Ext) (fs : list OwnedFile) (key : Prim)
  : Completion Bytes :=
  match JSON_stringify E fs with
  | Throw e => Throw e
  | Normal text =>
      match blobStream E (textEncoder_encode E text) with
      | Throw e => Throw e
      | Normal source =>
          match b64ToArray E key with
          | Throw e => Throw e
          | Normal k =>
              match encryptStream E source k with
              | Throw e => Throw e
              | Normal cipher => streamToArrayBuffer cipher
              end
          end
      end
  end.

(** ** A concrete environment

    A small remote service, a toy manifest codec and a merge that follows the
    spec's merge example. The general theorems are instantiated here. *)

Module Demo.

(** The outside: the stored manifest blob, whether the bearer token is still
    accepted, whether requests get through, whether the store takes writes. *)
Record Remote : Type := {
  manifest : Bytes;
  tokenValid : bool;
  online : bool;
  writable : bool
}.

Definition failed_to_fetch : JsError := TypeError "Failed to fetch".

Definition demo_getFileList (token : Prim) (x : Remote) : Completion Bytes * Remote :=
  if negb (online x) then (Throw failed_to_fetch, x)
  else if negb (tokenValid x) then (Throw (Error "401"), x)
  else (Normal (manifest x), x).

Definition demo_setFileList (token : Prim) (data : Bytes) (x : Remote)
  : Completion unit * Remote :=
  if negb (online x) then (Throw failed_to_fetch, x)
  else if negb (tokenValid x) then (Throw (Error "401"), x)
  else if negb (writable x) then (Throw (Error "503"), x)
  else (Normal tt,
        {| manifest := data; tokenValid := tokenValid x;
           online := online x; writable := writable x |}).

Definition demo_fetch (req : Request) (x : Remote) : Completion Response * Remote :=
  if negb (online x) then (Throw failed_to_fetch, x)
  else
    match req with
    | Post _ _ => (Normal {| status := 200; body := "token" |}, x)
    | Get _ _ => (Normal {| status := 200; body := "profile" |}, x)
    end.

Definition demo_json (r : Response) : Completion JsVal :=
  if String.eqb (body r) "token"
  then Normal (VObj (<["access_token" := PStr "tok"]> {["keys_jwe" := PStr "jwe"]}))
  else if String.eqb (body r) "profile"
  then Normal (VObj {["email" := PStr "ann@example.org"]})
  else Throw (Error "Unexpected token").

(** Unwraps the key with the private key kept in storage, and erases that. *)
Definition demo_getFileListKey (s : Storage) (keys_jwe : Prim)
  : Completion Prim * Storage :=
  match keys_jwe with
  | PStr _ => (Normal (PStr "a2V5"), Storage_remove "scopedBundlePrivateKey" s)
  | _ => (Throw (TypeError "Cannot read properties"), s)
  end.

Definition demo_b64ToArray (p : Prim) : Completion Bytes :=
  match p with
  | PStr s => Normal (String.list_byte_of_string s)
  | _ => Throw (TypeError "Cannot read properties")
  end.

(** A manifest entry known by its id alone. *)
Definition file (id : string) : OwnedFile :=
  {| fileId := id; fileName := id; fileUrl := ""; fileSize := 0; fileTime := 0;
     expiresAt := 0; dlimit := 1; ownerToken := ""; fileType := PUndefined |}.

(** The toy codec: a manifest is the string of its one-letter ids. *)
Definition demo_stringify (fs : list OwnedFile) : Completion string :=
  Normal (String.concat "" (map fileId fs)).

Definition demo_parse (s : string) : Completion (list OwnedFile) :=
  Normal (map (fun c => file (String c "")) (String.list_ascii_of_string s)).

Definition has_id (id : string) (fs : list OwnedFile) : bool :=
  existsb (fun f => String.eqb (fileId f) id) fs.

(** One remote entry is taken over unless its id is known locally. *)
Definition take_over (acc : list OwnedFile) (f : OwnedFile) : list OwnedFile :=
  if has_id (fileId f) acc then acc else acc ++ [f].

Definition flags (i o d : bool) : Obj :=
  <["incoming" := PBool i]>
    (<["outgoing" := PBool o]> {["downloadCount" := PBool d]}).

(** Modelled from the spec: [storage.merge(list)], which is not part of the
    sources, after the spec's merge example: local [{A,B}] and remote [{B,C}]
    merge to [{A,B,C}]; [incoming] says that the local list gained an entry,
    [outgoing] that the remote list lacks a local one. A call without a list
    merges the empty list. *)
Definition merge_union (list : option (list OwnedFile)) (s : Storage) : Obj * Storage :=
  let remote := default [] list in
  let merged := fold_left take_over remote (files s) in
  (flags (negb (length merged =? length (files s))%nat)
         (existsb (fun f => negb (has_id (fileId f) remote)) merged)
         false,
   {| engine := engine s; user := user s; files := merged;
      totalUploads := totalUploads s; totalDownloads := totalDownloads s |}).

Definition config : AuthConfig :=
  {| client_id := "send-client";
     token_endpoint := "https://oauth.example.org/v1/token";
     userinfo_endpoint := "https://profile.example.org/v1/profile" |}.

Definition env : Env Remote :=
  {| AUTH_CONFIG := config;
     fetch := demo_fetch;
     json := demo_json;
     getFileListKey := demo_getFileListKey;
     getFileList := demo_getFileList;
     setFileList := demo_setFileList;
     blobStream := fun b => Normal (Normal b);
     b64ToArray := demo_b64ToArray;
     decryptStream := fun s _ => Normal s;
     encryptStream := fun s _ => Normal s;
     textDecoder_decode := String.string_of_list_byte;
     textEncoder_encode := String.list_byte_of_string;
     JSON_parse := demo_parse;
     JSON_stringify := demo_stringify;
     merge := merge_union |}.

(** A sender whose upload is cancelled by the user, a receiver likewise. *)
Definition cancelled : JsError := Error "0".

Definition app_cancel : AppEnv Remote :=
  {| userEnv := env;
     MAX_ARCHIVES_PER_USER := 16;
     upload := fun _ _ x => (Throw cancelled, x);
     download := fun _ x => (Throw cancelled, x) |}.

(** A sender and a receiver that lose the connection. *)
Definition app_broken : AppEnv Remote :=
  {| userEnv := env;
     MAX_ARCHIVES_PER_USER := 16;
     upload := fun _ _ x => (Throw failed_to_fetch, x);
     download := fun _ x => (Throw failed_to_fetch, x) |}.

Definition store (fs : list OwnedFile) : Storage :=
  {| engine :=
       <["oauthState" := "c3RhdGU"]>
         (<["pkceVerifier" := "dmVyaWZpZXI"]>
            {["scopedBundlePrivateKey" := "cHJpdg"]});
     user := None; files := fs; totalUploads := 0; totalDownloads := 0 |}.

Definition remote (m : string) (valid on wr : bool) : Remote :=
  {| manifest := String.list_byte_of_string m; tokenValid := valid;
     online := on; writable := wr |}.

Definition session : Obj :=
  <["access_token" := PStr "tok"]> {["fileListKey" := PStr "a2V5"]}.

(** A world with one storage object, shared by the module and the user. *)
Definition world_of (fs : list OwnedFile) (data : Obj) (x : Remote) : World Remote :=
  {| heap := fun _ => store fs;
     this := {| this_storage := 0; this_data := data |};
     ext := x; net := [] |}.

(** Back from the identity provider, not yet logged in. *)
Definition w_redirected : World Remote := world_of [] ∅ (remote "" true true true).

(** The same, with the token endpoint out of reach. *)
Definition w_redirected_offline : World Remote :=
  world_of [] ∅ (remote "" true false true).

(** Logged in with local files A and B; the remote manifest lists B and C;
    the remote store refuses writes. *)
Definition w_readonly : World Remote :=
  world_of [file "A"; file "B"] session (remote "BC" true true false).

(** The same with a remote store that takes writes. *)
Definition w_writable : World Remote :=
  world_of [file "A"; file "B"] session (remote "BC" true true true).

(** Logged in, but the server no longer accepts the token. *)
Definition w_expired : World Remote :=
  world_of [file "A"; file "B"] session (remote "BC" false true true).

(** Logged in, with the network down. *)
Definition w_offline : World Remote :=
  world_of [file "A"; file "B"] session (remote "BC" true false true).

(** Not logged in, one local file. *)
Definition w_anonymous : World Remote :=
  world_of [file "A"] ∅ (remote "" true true true).

Definition app_of (w : World Remote) : AppState Remote :=
  {| world := w; state_storage := 0;
     archive := {| archiveFiles := ["notes.txt"]; password := PNull |};
     transfer := Some Receiver; uploading := false; modal := None;
     streamDownload := false; log := [] |}.

End Demo.

(** ** [app/ui/signupDialog.js] *)

(** [str.split(sep)] for a separator of one character. *)
Fixpoint split (sep : Ascii.ascii) (s : string) : list string :=
  match s with
  | EmptyString => [EmptyString]
  | String c rest =>
      if Ascii.eqb c sep then EmptyString :: split sep rest
      else
        match split sep rest with
        | part :: parts => String c part :: parts
        | [] => [String c EmptyString]
        end
  end.

(** The character ['@']. *)
Definition at_sign : Ascii.ascii := Ascii.ascii_of_nat 64.

(** [function emailish(str)] *)
Definition emailish (str : string) : bool :=
  if negb (truthy (PStr str)) then false
  else
    let a := split at_sign str in
    (length a =? 2)%nat && forallb (fun s => (0 <? String.length s)%nat) a.

(** What the dialog's callbacks do: to the form event, to [../metrics], to the
    application ([emit]) and to the dialog itself ([close]). *)
Inductive DialogEvent : Type :=
  | PreventDefault
  | submittedSignup (source : string)
  | canceledSignup (source : string)
  | EmitLogin (email : Prim)
  | CloseDialog.

(** [function cancel(event)] *)
Definition cancel (source : string) : list DialogEvent :=
  [canceledSignup source; CloseDialog].

(** [function submitEmail(event)], with [value] the text of the input
    [email-input]. *)
Definition submitEmail (source value : string) : list DialogEvent :=
  [PreventDefault;
   submittedSignup source;
   EmitLogin (if emailish value then PStr value else PNull)].

(** The character [sep] occurs in [s]. *)
Fixpoint occurs (sep : Ascii.ascii) (s : string) : bool :=
  match s with
  | EmptyString => false
  | String c rest => Ascii.eqb c sep || occurs sep rest
  end.

(** ** [app/user.js]: the getters and [login] *)

(** The global [LIMITS]. *)
Record Limits : Type := {
  MAX_FILE_SIZE : Z;
  MAX_EXPIRE_SECONDS : Z;
  MAX_DOWNLOADS : Z;
  ANON_MAX_FILE_SIZE : Z;
  ANON_MAX_EXPIRE_SECONDS : Z;
  ANON_MAX_DOWNLOADS : Z;
  MAX_FILES_PER_ARCHIVE : Z
}.

(** The other globals and imports of [user.js]. *)
Record Globals (Ext : Type) : Type := {
  LIMITS : Limits;
  (** [assets.get(name)] of [../common/assets] *)
  assets_get : string → Prim;
  (** [AUTH_CONFIG.authorization_endpoint], [AUTH_CONFIG.key_scope] *)
  authorization_endpoint : string;
  key_scope : string;
  (** [crypto.getRandomValues(new Uint8Array(n))] *)
  getRandomValues : nat → Ext → Bytes * Ext;
  (** [arrayToB64] of [./utils] *)
  arrayToB64 : Bytes → string;
  (** [prepareScopedBundleKey(storage)] and [preparePkce(storage)] of [./fxa];
      each is handed the storage object and may write to it *)
  prepareScopedBundleKey : Storage → Completion Prim * Storage;
  preparePkce : Storage → Completion Prim * Storage
}.
Arguments LIMITS {Ext} g.
Arguments assets_get {Ext} g.
Arguments authorization_endpoint {Ext} g.
Arguments key_scope {Ext} g.
Arguments getRandomValues {Ext} g.
Arguments arrayToB64 {Ext} g.
Arguments prepareScopedBundleKey {Ext} g.
Arguments preparePkce {Ext} g.

(** The address that [login] hands to [location.assign]: the endpoint and the
    query parameters, in the order of the [options] object. *)
Record Navigation : Type := {
  endpoint : string;
  params : list (string * Prim)
}.

Section UserGetters.

Context {Ext : Type} (E : Env Ext) (G : Globals Ext).

Local Abbreviation Js := (M (World Ext)).

(** [get firstAction() { return this.storage.get('firstAction'); }] *)
Definition firstAction : Js Prim :=
  l ← thisStorage; storage_get l "firstAction".

(** [set firstAction(action) { this.storage.set('firstAction', action); }] *)
Definition set_firstAction (action : string) : Js unit :=
  l ← thisStorage; storage_update l (Storage_set "firstAction" action).

(** [get id() { return this.info.uid; }] *)
Definition id_ : Js Prim := i ← info; mret (prop i "uid").

(** [get avatar()] *)
Definition avatar : Js Prim :=
  let defaultAvatar := assets_get G "user.svg" in
  i ← info;
  if truthy (prop i "avatarDefault")
  then mret (assets_get G "firefox_logo-only.svg")
  else mret (if truthy (prop i "avatar") then prop i "avatar" else defaultAvatar).

(** [get name() { return this.info.displayName; }] *)
Definition name : Js Prim := i ← info; mret (prop i "displayName").

(** [get email() { return this.info.email; }] *)
Definition email : Js Prim := i ← info; mret (prop i "email").

(** [get maxSize()] *)
Definition maxSize : Js Z :=
  li ← (loggedIn : Js bool);
  mret (if (li : bool) then MAX_FILE_SIZE (LIMITS G) else ANON_MAX_FILE_SIZE (LIMITS G)).

(** [get maxExpireSeconds()] *)
Definition maxExpireSeconds : Js Z :=
  li ← (loggedIn : Js bool);
  mret (if (li : bool) then MAX_EXPIRE_SECONDS (LIMITS G)
        else ANON_MAX_EXPIRE_SECONDS (LIMITS G)).

(** [get maxDownloads()] *)
Definition maxDownloads : Js Z :=
  li ← (loggedIn : Js bool);
  mret (if (li : bool) then MAX_DOWNLOADS (LIMITS G) else ANON_MAX_DOWNLOADS (LIMITS G)).

(** [toJSON() { return this.info; }] *)
Definition toJSON : Js Obj := info.

(** A call that is handed the storage object at [l] and works on it. *)
Definition storage_call {T} (l : Loc) (f : Storage → Completion T * Storage) : Js T :=
  fun w =>
    let '(r, s) := f (heap w l) in
    (r, {| heap := heap_upd (heap w) l s;
           this := this w; ext := ext w; net := net w |}).

(** [crypto.getRandomValues(new Uint8Array(n))]: the bytes come from outside. *)
Definition random_bytes (n : nat) : Js Bytes :=
  fun w =>
    let '(b, x) := getRandomValues G n (ext w) in
    (Normal b, {| heap := heap w; this := this w; ext := x; net := net w |}).

(** [async login(email)]. Its last statement hands the address to
    [location.assign]; here that address is what the call returns. *)
Definition login (email : Prim) : Js Navigation :=
  random ← random_bytes 16;
  let state := arrayToB64 G random in
  storage_update module_storage (Storage_set "oauthState" state);;
  l ← thisStorage;
  keys_jwk ← storage_call l (prepareScopedBundleKey G);
  l ← thisStorage;
  code_challenge ← storage_call l (preparePkce G);
  let options :=
    [("client_id", PStr (client_id (AUTH_CONFIG E)));
     ("code_challenge", code_challenge);
     ("code_challenge_method", PStr "S256");
     ("response_type", PStr "code");
     ("scope", PStr ("profile " ++ key_scope G));
     ("state", PStr state);
     ("keys_jwk", keys_jwk)] in
  let options :=
    if truthy email then (options ++ [("email", email)])%list else options in
  mret {| endpoint := authorization_endpoint G; params := options |}.

End UserGetters.

(** ** The application controller: the other handlers *)

(** [state.fileInfo]: the file reference of the download page. *)
Record FileRef : Type := {
  refPassword : Prim;
  requiresPassword : bool
}.

(** The calls into [./metrics] of these handlers. *)
Inductive PageMetric : Type :=
  | loggedOut
  | deletedUpload (file : OwnedFile)
  | triggeredSignup (source : string)
  | signedIn.

(** What these handlers do to the outside and to the page, in order. *)
Inductive PageEvent : Type :=
  | Ui (ev : UiEvent)
  | Tracked (m : PageMetric)
  | ReplaceState (path : string)
  | RenderLater
  | LocationAssign (nav : Navigation)
  | RemoteDelete (file : OwnedFile)
  | RemoteSetPassword (file : OwnedFile) (password : Prim)
  | RemoteMetadata.

(** The [state] object with the fields these handlers use besides those of
    [AppState]; [events] is the log of these handlers. *)
Record PageState (Ext : Type) : Type := {
  app : AppState Ext;
  fileInfo : FileRef;
  settingPassword : bool;
  passwordSetError : option JsError;
  events : list PageEvent
}.
Arguments app {Ext} p.
Arguments fileInfo {Ext} p.
Arguments settingPassword {Ext} p.
Arguments passwordSetError {Ext} p.
Arguments events {Ext} p.

(** What these handlers import or find as globals. *)
Record PageEnv (Ext : Type) : Type := {
  appEnv : AppEnv Ext;
  globals : Globals Ext;
  (** [archive.addFiles(files, maxSize)] of [./archive] *)
  archive_addFiles : list string → Z → Archive → Completion unit * Archive;
  (** [ownedFile.del()] and [file.setPassword(password)] of [./ownedFile] *)
  ownedFile_del : OwnedFile → Ext → Completion unit * Ext;
  ownedFile_setPassword : OwnedFile → Prim → Ext → Completion OwnedFile * Ext;
  (** [receiver.getMetadata()] of [./fileReceiver], which fills in the file
      reference it was built from *)
  receiver_getMetadata : FileRef → Ext → Completion unit * FileRef * Ext
}.
Arguments appEnv {Ext} p.
Arguments globals {Ext} p.
Arguments archive_addFiles {Ext} p.
Arguments ownedFile_del {Ext} p.
Arguments ownedFile_setPassword {Ext} p.
Arguments receiver_getMetadata {Ext} p.

(** Modelled from the spec: [storage.writeFile(file)] of the local persisted
    state, which replaces the stored entry of the same id. *)
Definition Storage_writeFile (f : OwnedFile) (s : Storage) : Storage :=
  {| engine := engine s; user := user s;
     files := map (fun g => if String.eqb (fileId g) (fileId f) then f else g) (files s);
     totalUploads := totalUploads s; totalDownloads := totalDownloads s |}.

Section Page.

Context {Ext : Type} (PE : PageEnv Ext).

Local Abbreviation H := (M (AppState Ext)).
Local Abbreviation P := (M (PageState Ext)).

(** [async function checkFiles()] *)
Definition checkFiles : H unit :=
  changes ← in_world (syncFileList (userEnv (appEnv PE)));
  let rerender :=
    truthy (prop changes "incoming") || truthy (prop changes "downloadCount") in
  if rerender then render else mret tt.

(** Run a handler step that works on the fields of [AppState]. *)
Definition in_app {T} (m : H T) : P T :=
  fun ps =>
    let '(r, a) := m (app ps) in
    (r, {| app := a; fileInfo := fileInfo ps;
           settingPassword := settingPassword ps;
           passwordSetError := passwordSetError ps; events := events ps |}).

(** Run a method of [state.user], or a storage method. *)
Definition in_user {T} (m : M (World Ext) T) : P T := in_app (in_world m).

(** Record what a handler does. *)
Definition page_emit (ev : PageEvent) : P unit :=
  fun ps =>
    (Normal tt,
     {| app := app ps; fileInfo := fileInfo ps;
        settingPassword := settingPassword ps;
        passwordSetError := passwordSetError ps;
        events := events ps ++ [ev] |}).

(** [render()] *)
Definition page_render : P unit := page_emit (Ui Render).

Definition get_page : P (PageState Ext) := fun ps => (Normal ps, ps).

(** A call that the outside answers, not recorded in the network log. *)
Definition outside {T} (f : Ext → Completion T * Ext) : M (World Ext) T :=
  fun w =>
    let '(r, x) := f (ext w) in
    (r, {| heap := heap w; this := this w; ext := x; net := net w |}).

(** A call of a handler that leaves the client: it is recorded, and the
    outside answers. *)
Definition page_external {T} (ev : PageEvent) (f : Ext → Completion T * Ext) : P T :=
  page_emit ev;;
  in_user (outside f).

(** [state.settingPassword = b] *)
Definition set_settingPassword (b : bool) : P unit :=
  fun ps =>
    (Normal tt,
     {| app := app ps; fileInfo := fileInfo ps; settingPassword := b;
        passwordSetError := passwordSetError ps; events := events ps |}).

(** [state.passwordSetError = err] *)
Definition set_passwordSetError (err : JsError) : P unit :=
  fun ps =>
    (Normal tt,
     {| app := app ps; fileInfo := fileInfo ps;
        settingPassword := settingPassword ps;
        passwordSetError := Some err; events := events ps |}).

(** Replace [state.fileInfo], the object that the receiver and the handler
    share. *)
Definition set_fileInfo (f : FileRef) : P unit :=
  fun ps =>
    (Normal tt,
     {| app := app ps; fileInfo := f; settingPassword := settingPassword ps;
        passwordSetError := passwordSetError ps; events := events ps |}).

(** Run a method of [state.archive] that works on the archive. *)
Definition archive_call {T} (f : Archive → Completion T * Archive) : H T :=
  fun st =>
    let '(r, a) := f (archive st) in
    (r, {| world := world st; state_storage := state_storage st;
           archive := a; transfer := transfer st;
           uploading := uploading st; modal := modal st;
           streamDownload := streamDownload st; log := log st |}).

(** [emitter.on('login', email => { state.user.login(email); })]. The promise
    of [login] is dropped, and with it a failure of [login]. *)
Definition on_login (email : Prim) : P unit :=
  fun ps =>
    match in_user (login (userEnv (appEnv PE)) (globals PE) email) ps with
    | (Normal nav, ps') => page_emit (LocationAssign nav) ps'
    | (Throw _, ps') => (Normal tt, ps')
    end.

(** [emitter.on('logout', () => { ... })] *)
Definition on_logout : P unit :=
  in_user logout;;
  page_emit (Tracked loggedOut);;
  page_emit (Ui (PushState "/")).

(** [emitter.on('delete', async ownedFile => { ... })] *)
Definition on_delete (ownedFile : OwnedFile) : P unit :=
  try_catch
    (page_emit (Tracked (deletedUpload ownedFile));;
     ps ← get_page;
     in_user (storage_update (state_storage (app ps))
                (Storage_remove (fileId ownedFile)));;
     page_external (RemoteDelete ownedFile) (ownedFile_del PE ownedFile))
    (fun e => page_emit (Ui (RavenCapture e)));;
  page_render.

(** [emitter.on('signup-cta', source => { ... })] *)
Definition on_signup_cta (source : string) : P unit :=
  page_emit (Tracked (triggeredSignup source));;
  in_app (set_modal (signupDialog source));;
  page_render.

(** [emitter.on('addFiles', async ({ files }) => { ... })]. The [catch] block
    either leaves the handler ([true], after running the [signup-cta]
    listeners) or falls through to [render()] ([false]). As in [on_upload],
    [okDialog] holds the message key that [state.translate] is given. *)
Definition on_addFiles (files : list string) : P unit :=
  if (length files <? 1)%nat then mret tt
  else
    maxSize ← in_user (maxSize (globals PE));
    left ← try_catch
      (in_app (archive_call (archive_addFiles PE files maxSize));; mret false)
      (fun e =>
         if String.eqb (message e) "fileTooBig"
            && (maxSize <? MAX_FILE_SIZE (LIMITS (globals PE)))%Z
         then on_signup_cta "size";; mret true
         else in_app (set_modal (okDialog (message e)));; mret false);
    if (left : bool) then mret tt else page_render.

(** [emitter.on('authenticate', async (code, oauthState) => { ... })];
    [RenderLater] is [setTimeout(render)]. *)
Definition on_authenticate (code oauthState : Prim) : P unit :=
  try_catch
    (in_user (finishLogin (userEnv (appEnv PE)) code oauthState);;
     in_user (syncFileList (userEnv (appEnv PE)));;
     page_emit (Tracked signedIn);;
     page_emit (ReplaceState "/"))
    (fun e =>
       page_emit (ReplaceState "/error");;
       page_emit RenderLater).

(** [emitter.on('password', async ({ password, file }) => { ... })]. The
    pause [await delay(1000)] is not modelled. *)
Definition on_password (password : Prim) (file : OwnedFile) : P unit :=
  try_finally
    (try_catch
       (set_settingPassword true;;
        page_render;;
        file ← page_external (RemoteSetPassword file password)
                 (ownedFile_setPassword PE file password);
        ps ← get_page;
        in_user (storage_update (state_storage (app ps)) (Storage_writeFile file)))
       (fun err =>
          page_emit (Ui (ConsoleError err));;
          set_passwordSetError err))
    (set_settingPassword false);;
  page_render.

(** [await receiver.getMetadata()]: the receiver works on [state.fileInfo],
    whether the call succeeds or not. *)
Definition do_getMetadata : P unit :=
  ps ← get_page;
  '(r, f) ← page_external RemoteMetadata
              (fun x =>
                 let '(r, f, x') := receiver_getMetadata PE (fileInfo ps) x in
                 (Normal (r, f), x'));
  set_fileInfo f;;
  lift r.

(** [emitter.on('getMetadata', async () => { ... })]. As in [on_addFiles], the
    [catch] block either leaves the handler or falls through to [render()]. *)
Definition on_getMetadata : P unit :=
  left ← try_catch
    (do_getMetadata;;
     in_app (fun st => set_transfer (Some Receiver) (uploading st) st);;
     mret false)
    (fun e =>
       if String.eqb (message e) "401" || String.eqb (message e) "404"
       then
         ps ← get_page;
         set_fileInfo {| refPassword := PNull;
                         requiresPassword := requiresPassword (fileInfo ps) |};;
         if negb (requiresPassword (fileInfo ps))
         then page_emit (Ui (PushState "/404"));; mret true
         else mret false
       else mret false);
  if (left : bool) then mret tt else page_render.

End Page.

(** ** Vocabulary of the further statements *)

Section FurtherVocabulary.

Context {Ext : Type} (E : Env Ext).

(** [new User(storage)] on the storage object of the current user: what a
    reload of the page builds. *)
Definition reloaded (w : World Ext) : User :=
  User_new (heap w) (this_storage (this w)).

(** A reload finds the user as it is now. *)
Definition survives_reload (w : World Ext) : Prop := reloaded w = this w.

(** The value of the query parameter [k] of an address. *)
Definition param (nav : Navigation) (k : string) : option Prim :=
  snd <$> List.find (fun kv => String.eqb (fst kv) k) (params nav).

(** [f], handed a storage object, does not write the entry [k]. *)
Definition keeps_entry {T} (f : Storage → Completion T * Storage) (k : string) : Prop :=
  ∀ s, engine (f s).2 !! k = engine s !! k.

(** The cipher gives back what it was given: what [encryptStream] makes of a
    blob under a key, [decryptStream] turns back into that blob. *)
Definition cipher_round_trip : Prop :=
  ∀ plain key source cipher encrypted,
    blobStream E plain = Normal source →
    encryptStream E source key = Normal cipher →
    streamToArrayBuffer cipher = Normal encrypted →
    ∃ source' decrypted,
      blobStream E encrypted = Normal source' ∧
      decryptStream E source' key = Normal decrypted ∧
      streamToArrayBuffer decrypted = Normal plain.

(** The manifest codec gives back the list [fs]. *)
Definition codec_round_trip_at (fs : list OwnedFile) : Prop :=
  ∀ text,
    JSON_stringify E fs = Normal text →
    JSON_parse E (textDecoder_decode E (textEncoder_encode E text)) = Normal fs.

(** The remote store hands out what it took in. *)
Definition store_round_trip : Prop :=
  ∀ token data x x',
    setFileList E token data x = (Normal tt, x') →
    ∃ x'', getFileList E token x' = (Normal data, x'').

End FurtherVocabulary.

(** ** A concrete page *)

Module DemoPage.

Import Demo.

(** Limits that the examples can reach: a file counts as many bytes as its
    name has characters. *)
Definition limits : Limits :=
  {| MAX_FILE_SIZE := 24; MAX_EXPIRE_SECONDS := 604800; MAX_DOWNLOADS := 100;
     ANON_MAX_FILE_SIZE := 12; ANON_MAX_EXPIRE_SECONDS := 86400;
     ANON_MAX_DOWNLOADS := 5; MAX_FILES_PER_ARCHIVE := 64 |}.

(** The random source hands out the letter [s]; the toy encoding reads the
    bytes as text. *)
Definition demo_globals : Globals Remote :=
  {| LIMITS := limits;
     assets_get := fun name => PStr ("/" ++ name);
     authorization_endpoint := "https://oauth.example.org/v1/authorization";
     key_scope := "https://identity.example.org/apps/send";
     getRandomValues := fun n x => (repeat Byte.x73 n, x);
     arrayToB64 := String.string_of_list_byte;
     prepareScopedBundleKey :=
       fun s => (Normal (PStr "jwk"), Storage_set "scopedBundlePrivateKey" "cHJpdg" s);
     preparePkce :=
       fun s => (Normal (PStr "challenge"), Storage_set "pkceVerifier" "dmVyaWZpZXI" s) |}.

(** A sender and a receiver that work while the connection is up; two
    archives are as many as a user may have. *)
Definition app_live : AppEnv Remote :=
  {| userEnv := env;
     MAX_ARCHIVES_PER_USER := 2;
     upload := fun _ _ x =>
       if online x then (Normal (file "N"), x) else (Throw failed_to_fetch, x);
     download := fun _ x =>
       if online x then (Normal tt, x) else (Throw failed_to_fetch, x) |}.

(** A receiver whose file is gone. *)
Definition app_gone : AppEnv Remote :=
  {| userEnv := env;
     MAX_ARCHIVES_PER_USER := 2;
     upload := fun _ _ x => (Throw failed_to_fetch, x);
     download := fun _ x => (Throw (Error "404"), x) |}.

Definition demo_addFiles (fs : list string) (maxSize : Z) (a : Archive)
  : Completion unit * Archive :=
  if existsb (fun f => (maxSize <? Z.of_nat (String.length f))%Z) fs
  then (Throw (Error "fileTooBig"), a)
  else (Normal tt, {| archiveFiles := archiveFiles a ++ fs; password := password a |}).

(** The server answers while the connection is up; it refuses the metadata of
    a file with a 401 when the token is not accepted. *)
Definition demo_del (f : OwnedFile) (x : Remote) : Completion unit * Remote :=
  if online x then (Normal tt, x) else (Throw failed_to_fetch, x).

Definition demo_setPassword (f : OwnedFile) (p : Prim) (x : Remote)
  : Completion OwnedFile * Remote :=
  if online x then (Normal f, x) else (Throw failed_to_fetch, x).

Definition demo_getMetadata (f : FileRef) (x : Remote)
  : Completion unit * FileRef * Remote :=
  if negb (online x) then (Throw failed_to_fetch, f, x)
  else if negb (tokenValid x) then (Throw (Error "401"), f, x)
  else (Normal tt, f, x).

Definition page : PageEnv Remote :=
  {| appEnv := app_live;
     globals := demo_globals;
     archive_addFiles := demo_addFiles;
     ownedFile_del := demo_del;
     ownedFile_setPassword := demo_setPassword;
     receiver_getMetadata := demo_getMetadata |}.

(** A page on the world [w], on a shared file that needs no password. *)
Definition page_of (w : World Remote) : PageState Remote :=
  {| app := app_of w;
     fileInfo := {| refPassword := PStr "secret"; requiresPassword := false |};
     settingPassword := false; passwordSetError := None; events := [] |}.

(** The same page before the metadata of the file was fetched. *)
Definition fresh_page_of (w : World Remote) : PageState Remote :=
  {| app :=
       {| world := w; state_storage := 0;
          archive := {| archiveFiles := []; password := PNull |};
          transfer := None; uploading := false; modal := None;
          streamDownload := false; log := [] |};
     fileInfo := {| refPassword := PStr "secret"; requiresPassword := false |};
     settingPassword := false; passwordSetError := None; events := [] |}.

(** The address that [login] assigns for [ann@example.org]. *)
Definition state_text : string := "ssssssssssssssss".

Definition nav_ann : Navigation :=
  {| endpoint := "https://oauth.example.org/v1/authorization";
     params :=
       [("client_id", PStr "send-client");
        ("code_challenge", PStr "challenge");
        ("code_challenge_method", PStr "S256");
        ("response_type", PStr "code");
        ("scope", PStr "profile https://identity.example.org/apps/send");
        ("state", PStr state_text);
        ("keys_jwk", PStr "jwk");
        ("email", PStr "ann@example.org")] |}.

End DemoPage.

(** ** Proof automation *)

(** Unfold the monad's operations. *)
Ltac js :=
  unfold mbind, M_bind, bind, mret, M_ret, ret, lift, throw, try_catch,
    try_finally in *.

(** Split on every external outcome that the goal branches on. *)
Ltac outcomes := repeat case_match; simplify_eq/=.

(** Unfold [finishLogin] down to the outcomes of its collaborators. *)
Ltac finishLogin_paths :=
  unfold finishLogin, storage_get, storage_remove, storage_update, thisStorage,
    do_fetch, do_getFileListKey, external, set_info;
  js; cbn [fst snd heap this ext net this_storage this_data].

(** Unfold a handler down to the outcomes of its collaborators. *)
Ltac handler_paths :=
  unfold on_upload, on_download, upload_try, upload_catch, upload_finally,
    download_try, download_catch, get_state, set_modal, set_transfer,
    clear_archive, clear_transfer, render, emit, in_world, bearerToken, info,
    external, storage_update;
  js;
  cbn [fst snd world state_storage archive transfer uploading modal
       streamDownload log heap this ext net this_storage this_data].

(** Unfold [login] down to the outcomes of its collaborators. *)
Ltac login_paths :=
  unfold login, random_bytes, storage_call, storage_update, thisStorage;
  js; cbn [fst snd heap this ext net this_storage this_data].

(** Unfold a page handler down to the outcomes of its collaborators. *)
Ltac page_paths :=
  unfold on_login, on_logout, on_delete, on_signup_cta, on_addFiles,
    on_authenticate, on_password, on_getMetadata, do_getMetadata, checkFiles,
    page_external, page_render, page_emit, in_user, in_app, in_world, outside,
    get_page, set_settingPassword, set_passwordSetError, set_fileInfo,
    archive_call, set_modal, set_transfer, render, emit, storage_update,
    maxSize, loggedIn, info;
  js;
  cbn [fst snd app fileInfo settingPassword passwordSetError events
       world state_storage archive transfer uploading modal streamDownload log
       heap this ext net this_storage this_data].

(** * Properties *)

Section UserProperties.

Context {Ext : Type} (E : Env Ext).

Lemma heap_upd_same h l s : heap_upd h l s l = s.
Proof. unfold heap_upd. by rewrite Nat.eqb_refl. Qed.

(** The manifest fetch touches neither the storage objects nor [this]. *)
Lemma fetchManifest_frame (w : World Ext) :
  heap (fetchManifest E w).2 = heap w ∧ this (fetchManifest E w).2 = this w.
Proof.
  unfold fetchManifest, bearerToken, info, external. js.
  outcomes; done.
Qed.

Lemma after_fetch_frame (w : World Ext) :
  heap (after_fetch E w) = heap w ∧ this (after_fetch E w) = this w.
Proof.
  unfold after_fetch. destruct (negb (is_loggedIn w)); [done |].
  apply fetchManifest_frame.
Qed.

Lemma local_store_after_fetch (w : World Ext) :
  local_store (after_fetch E w) = local_store w.
Proof.
  unfold local_store.
  destruct (after_fetch_frame w) as [-> ->]. reflexivity.
Qed.

(** Neither does the manifest upload. *)
Lemma after_upload_frame (w : World Ext) :
  heap (after_upload E w) = heap w ∧ this (after_upload E w) = this w.
Proof.
  unfold after_upload, uploadManifest, storage_files, bearerToken, info, external.
  js. outcomes; done.
Qed.

Lemma local_store_after_upload (w : World Ext) :
  local_store (after_upload E w) = local_store w.
Proof.
  unfold local_store.
  destruct (after_upload_frame w) as [-> ->]. reflexivity.
Qed.

Lemma local_store_with (w : World Ext) s :
  local_store (with_local_store w s) = s.
Proof. unfold local_store, with_local_store. simpl. apply heap_upd_same. Qed.

Lemma storage_merge_run a (w : World Ext) :
  storage_merge E a w =
  (Normal (merge E a (local_store w)).1,
   with_local_store w (merge E a (local_store w)).2).
Proof.
  unfold storage_merge, local_store, with_local_store.
  destruct (merge E a _); reflexivity.
Qed.

(** [syncFileList], path by path. *)
Lemma syncFileList_run (w : World Ext) :
  syncFileList E w =
  match merge_input E w with
  | None => (Normal incoming_only, (logout (fetchManifest E w).2).2)
  | Some a =>
      let w1 := after_fetch E w in
      let c := (merge E a (local_store w1)).1 in
      let w2 := with_local_store w1 (merge E a (local_store w1)).2 in
      (Normal c, if is_loggedIn w && outgoing c then after_upload E w2 else w2)
  end.
Proof.
  unfold syncFileList, merge_input, after_fetch, after_upload, loggedIn, info.
  fold (is_loggedIn w). js. simpl. fold (is_loggedIn w).
  destruct (is_loggedIn w); simpl.
  - destruct (fetchManifest E w) as [[list | e] w1]; simpl.
    + rewrite storage_merge_run. unfold outgoing.
      destruct (truthy _); simpl; [| reflexivity].
      by destruct (uploadManifest E _) as [[[] | e] w3].
    + destruct (String.eqb (message e) "401"); simpl.
      * by destruct (logout w1) as [[[] | e'] w2] eqn:Hl.
      * rewrite storage_merge_run. unfold outgoing.
        destruct (truthy _); simpl; [| reflexivity].
        by destruct (uploadManifest E _) as [[[] | e'] w3].
  - rewrite storage_merge_run. reflexivity.
Qed.

Lemma merge_input_anonymous (w : World Ext) :
  is_loggedIn w = false → merge_input E w = Some None.
Proof. intros H. unfold merge_input. by rewrite H. Qed.

Lemma merge_input_401 (w : World Ext) :
  merge_input E w = None ↔ fails_with_401 E w.
Proof.
  unfold merge_input, fails_with_401. split.
  - destruct (is_loggedIn w); simpl; [| done].
    destruct (fetchManifest E w) as [[list | e] w1]; [done |].
    destruct (String.eqb_spec (message e) "401"); [| done].
    intros _. split; [done |]. by exists e, w1.
  - intros [-> (e & w1 & -> & ->)]. reflexivity.
Qed.

(** [syncFileList] always resolves: every failure inside is caught. *)
Lemma syncFileList_resolves (w : World Ext) :
  ∃ c, (syncFileList E w).1 = Normal c.
Proof.
  rewrite syncFileList_run. destruct (merge_input E w); simpl; eauto.
Qed.

(** What [logout] leaves behind. *)
Lemma logout_run (w : World Ext) :
  let w' := (logout w).2 in
  this_data (this w') = ∅ ∧ user (local_store w') = Some ∅ ∧
  files (local_store w') = [] ∧ is_loggedIn w' = false.
Proof.
  unfold logout, thisStorage, storage_update, set_info, local_store, is_loggedIn.
  js. simpl. rewrite !heap_upd_same. done.
Qed.

(** C1: in a logged-in session whose manifest fetch or decrypt fails with a
    401, [syncFileList] logs the session out (the session data and the
    persisted user record become the empty object, the local file list is
    emptied) and returns [{ incoming: true }]; on every other path the
    session object is what it was, and so is the persisted user record as far
    as [merge] leaves it alone. *)
Theorem sync_401_forces_logout (w : World Ext) :
  (fails_with_401 E w →
     let r := syncFileList E w in
     r.1 = Normal incoming_only ∧
     prop incoming_only "incoming" = PBool true ∧
     this_data (this r.2) = ∅ ∧
     user (local_store r.2) = Some ∅ ∧
     files (local_store r.2) = [] ∧
     is_loggedIn r.2 = false) ∧
  (¬ fails_with_401 E w →
     let r := syncFileList E w in
     this r.2 = this w ∧
     (merge_keeps_user E → ∀ l, user (heap r.2 l) = user (heap w l))).
Proof.
  split.
  - intros H401. apply merge_input_401 in H401.
    rewrite syncFileList_run, H401. simpl.
    split; [done |]. split; [done |]. apply logout_run.
  - intros Hnot. rewrite syncFileList_run.
    destruct (merge_input E w) as [a |] eqn:Hin;
      [| by apply merge_input_401 in Hin].
    simpl.
    destruct (after_fetch_frame w) as [Hh Ht].
    set (w2 := with_local_store _ _).
    assert (this w2 = this w) as Hthis by (subst w2; simpl; done).
    assert (merge_keeps_user E → ∀ l, user (heap w2 l) = user (heap w l)) as Huser.
    { intros Hk l. subst w2. simpl. unfold heap_upd.
      destruct (Nat.eqb_spec (this_storage (this (after_fetch E w))) l) as [<- |].
      - rewrite Hk. unfold local_store. by rewrite Hh.
      - by rewrite Hh. }
    destruct (is_loggedIn w && outgoing _); [| done].
    destruct (after_upload_frame w2) as [-> ->]. done.
Qed.

(** C7: without an access token [syncFileList] is the local store's merge,
    called without a list: it returns what that merge returns, leaves the
    store as that merge leaves it, and sends nothing. *)
Theorem sync_anonymous_is_local_merge (w : World Ext) :
  is_loggedIn w = false →
  let r := syncFileList E w in
  r.1 = Normal (merge E None (local_store w)).1 ∧
  local_store r.2 = (merge E None (local_store w)).2 ∧
  net r.2 = net w ∧ ext r.2 = ext w ∧ this r.2 = this w.
Proof.
  intros Hanon. rewrite syncFileList_run, (merge_input_anonymous _ Hanon).
  unfold after_fetch. rewrite Hanon. cbn [negb andb fst snd].
  by rewrite local_store_with.
Qed.

(** C4: when the manifest fetch or decrypt of a logged-in session fails with
    anything but a 401, [syncFileList] merges the empty list into the local
    store and returns that merge's result; the session stays logged in and
    the store is what the merge made of it. *)
Theorem sync_other_failure_merges_empty (w w1 : World Ext) (e : JsError) :
  is_loggedIn w = true →
  fetchManifest E w = (Throw e, w1) →
  message e ≠ "401" →
  let r := syncFileList E w in
  r.1 = Normal (merge E (Some []) (local_store w)).1 ∧
  local_store r.2 = (merge E (Some []) (local_store w)).2 ∧
  this r.2 = this w.
Proof.
  intros Hin Hfetch Hmsg.
  assert (merge_input E w = Some (Some [])) as Hmi.
  { unfold merge_input. rewrite Hin, Hfetch. simpl.
    by destruct (String.eqb_spec (message e) "401"). }
  rewrite syncFileList_run, Hmi. cbv zeta. cbn [fst snd].
  rewrite Hin, local_store_after_fetch. cbn [andb].
  destruct (after_fetch_frame w) as [Hh Ht].
  destruct (outgoing _).
  - rewrite local_store_after_upload, local_store_with.
    destruct (after_upload_frame
      (with_local_store (after_fetch E w) (merge E (Some []) (local_store w)).2))
      as [_ ->].
    done.
  - by rewrite local_store_with.
Qed.


(** The upload step: a request goes out exactly when serialization and
    encryption succeed, and it carries that ciphertext. *)
Lemma after_upload_run (w : World Ext) :
  let token := prop (this_data (this w)) "access_token" in
  let key := prop (this_data (this w)) "fileListKey" in
  match manifest_ciphertext E (files (local_store w)) key with
  | Normal encrypted =>
      net (after_upload E w) = (net w ++ [NetSetFileList token encrypted])%list ∧
      ext (after_upload E w) = (setFileList E token encrypted (ext w)).2
  | Throw _ => net (after_upload E w) = net w ∧ ext (after_upload E w) = ext w
  end.
Proof.
  unfold after_upload, uploadManifest, manifest_ciphertext, storage_files,
    bearerToken, info, external, local_store, streamToArrayBuffer.
  js. outcomes; try done.
  all: match goal with H : setFileList _ _ _ _ = _ |- _ => by rewrite H end.
Qed.

(** C8: when the merge of a logged-in sync reports outgoing changes, the
    merged local list is serialized, encrypted with the file-list key and sent
    with the bearer token to replace the remote manifest; whether a stage of
    that fails or not, the call returns the merge result and the local store
    and session are what the merge left. *)
Theorem sync_outgoing_uploads_best_effort (w : World Ext) (l : list OwnedFile) :
  is_loggedIn w = true →
  merge_input E w = Some (Some l) →
  outgoing (merge E (Some l) (local_store w)).1 = true →
  let w1 := after_fetch E w in
  let c := (merge E (Some l) (local_store w)).1 in
  let s := (merge E (Some l) (local_store w)).2 in
  let token := prop (this_data (this w)) "access_token" in
  let key := prop (this_data (this w)) "fileListKey" in
  let r := syncFileList E w in
  r.1 = Normal c ∧ local_store r.2 = s ∧ this r.2 = this w ∧
  match manifest_ciphertext E (files s) key with
  | Normal encrypted =>
      net r.2 = (net w1 ++ [NetSetFileList token encrypted])%list ∧
      ext r.2 = (setFileList E token encrypted (ext w1)).2
  | Throw _ => net r.2 = net w1 ∧ ext r.2 = ext w1
  end.
Proof.
  intros Hin Hmi Hout. cbv zeta.
  rewrite syncFileList_run, Hmi. cbv zeta. cbn [fst snd].
  rewrite Hin, local_store_after_fetch, Hout. cbn [andb].
  destruct (after_fetch_frame w) as [Hh Ht].
  set (w2 := with_local_store _ _).
  assert (local_store w2 = (merge E (Some l) (local_store w)).2) as Hs
    by apply local_store_with.
  assert (this w2 = this w) as Hthis by (subst w2; simpl; done).
  destruct (after_upload_frame w2) as [Hh2 Ht2].
  split; [done |].
  split; [by rewrite local_store_after_upload |].
  split; [by rewrite Ht2 |].
  pose proof (after_upload_run w2) as Hup. cbv zeta in Hup.
  by rewrite Hs, Hthis in Hup.
Qed.

(** C9, as the code has it: [syncFileList] always returns an object. On the
    401 path it is [{ incoming: true }], without the fields [outgoing] and
    [downloadCount]; on every other path it is the object that [merge]
    returned for the list it was handed and the local store, with the three
    boolean flags that [merge] gives it. *)
Theorem sync_result_shape (w : World Ext) :
  merge_returns_flags E →
  ∃ c, (syncFileList E w).1 = Normal c ∧
       ((fails_with_401 E w ∧ c = incoming_only ∧
         c !! "incoming" = Some (PBool true) ∧
         c !! "outgoing" = None ∧ c !! "downloadCount" = None) ∨
        (¬ fails_with_401 E w ∧
         (∃ list, merge_input E w = Some list ∧
                  c = (merge E list (local_store w)).1) ∧
         has_three_flags c)).
Proof.
  intros Hflags. rewrite syncFileList_run.
  destruct (merge_input E w) as [a |] eqn:Hmi.
  - eexists. split; [reflexivity |]. right. split.
    + rewrite <- merge_input_401. by rewrite Hmi.
    + cbv zeta. rewrite local_store_after_fetch.
      split; [by exists a | apply Hflags].
  - eexists. split; [reflexivity |]. left.
    split; [by apply merge_input_401 |]. done.
Qed.

(** A merge that reads [outgoing] as in the spec's merge example cannot also
    be quiet on every second run, unless no merged store ever holds an entry
    that the remote list lacks. *)
Lemma rerun_quiet_excludes_local_only :
  merge_reports_missing E → merge_rerun_quiet E →
  ∀ l s f, f ∈ files (merge E l s).2 → fileId f ∈ map fileId (default [] l).
Proof.
  intros Hmissing Hquiet l s f Hin.
  destruct (decide (fileId f ∈ map fileId (default [] l))) as [| Hnot]; [done |].
  destruct (merge E l s) as [c1 s1] eqn:Hm1. simpl in Hin.
  destruct (Hquiet l s c1 s1 Hm1) as (c2 & Hm2 & Hout).
  specialize (Hmissing l s1 f). rewrite Hm2 in Hmissing. simpl in Hmissing.
  rewrite Hmissing in Hout; done.
Qed.

(** C5, as the code has it: under the merge contract, a second
    [syncFileList] right after a first one that merged (it did not leave
    through the 401 branch) returns [outgoing = false] and leaves the local
    store and the session as the first call left them, provided the second
    call merges the same remote list after a first call with nothing outgoing
    (or with a merge that is quiet on every second run), or merges the very
    list the first call left in the local store (the manifest it uploaded). *)
Theorem sync_twice_settled (w w1 w2 : World Ext) (r1 r2 : Obj)
    (a1 a2 : option (list OwnedFile)) :
  merge_contract E →
  syncFileList E w = (Normal r1, w1) →
  syncFileList E w1 = (Normal r2, w2) →
  merge_input E w = Some a1 →
  merge_input E w1 = Some a2 →
  (a2 = a1 ∧ (outgoing r1 = false ∨ merge_rerun_quiet E)) ∨
  a2 = Some (files (local_store w1)) →
  outgoing r2 = false ∧ local_store w2 = local_store w1 ∧ this w2 = this w1.
Proof.
  intros [Hquiet Hown] Hrun1 Hrun2 Hmi1 Hmi2 Hcase.
  rewrite syncFileList_run, Hmi1 in Hrun1. cbv zeta in Hrun1.
  rewrite syncFileList_run, Hmi2 in Hrun2. cbv zeta in Hrun2.
  rewrite local_store_after_fetch in Hrun1, Hrun2.
  destruct (merge E a1 (local_store w)) as [c1 s1] eqn:Hm1.
  cbn [fst snd] in Hrun1.
  assert (r1 = c1) as -> by congruence.
  assert (local_store w1 = s1) as Hs1.
  { assert (w1 = if is_loggedIn w && outgoing c1
                 then after_upload E (with_local_store (after_fetch E w) s1)
                 else with_local_store (after_fetch E w) s1) as -> by congruence.
    destruct (is_loggedIn w && outgoing c1);
      by rewrite ?local_store_after_upload, local_store_with. }
  assert (∃ c2, merge E a2 s1 = (c2, s1) ∧ outgoing c2 = false) as (c2 & Hm2 & Hout2).
  { destruct Hcase as [[-> [Hout1 | Hrerun]] | ->].
    - by eapply Hquiet.
    - by eapply Hrerun.
    - rewrite Hs1. by eapply Hown. }
  rewrite Hs1, Hm2 in Hrun2. cbn [fst snd] in Hrun2.
  rewrite Hout2, andb_false_r in Hrun2.
  assert (r2 = c2) as -> by congruence.
  assert (w2 = with_local_store (after_fetch E w1) s1) as -> by congruence.
  split; [done |]. split; [by rewrite local_store_with |].
  simpl. by destruct (after_fetch_frame w1) as [_ ->].
Qed.



Lemma Storage_get_None k s : engine s !! k = None → Storage_get k s = PNull.
Proof. unfold Storage_get. by intros ->. Qed.

(** A [state] that differs from the stored one: the call stops at the check. *)
Lemma finishLogin_mismatch_run (code state : Prim) (w : World Ext) :
  state ≠ Storage_get "oauthState" (heap w module_storage) →
  finishLogin E code state w =
  (Throw (Error "state mismatch"),
   (storage_remove module_storage "oauthState" w).2).
Proof.
  intros Hne. finishLogin_paths.
  unfold strict_eq. by rewrite bool_decide_eq_false_2.
Qed.

(** C2: a [state] argument that differs from the stored [oauthState] makes
    [finishLogin] throw [Error('state mismatch')] before anything is sent:
    the network log and the outside are untouched, the session object and
    every persisted user record and file list are what they were. *)
Theorem finishLogin_state_mismatch (code state : Prim) (w : World Ext) :
  state ≠ Storage_get "oauthState" (heap w module_storage) →
  let r := finishLogin E code state w in
  r.1 = Throw (Error "state mismatch") ∧
  net r.2 = net w ∧ ext r.2 = ext w ∧ this r.2 = this w ∧
  ∀ l, user (heap r.2 l) = user (heap w l) ∧
       files (heap r.2 l) = files (heap w l).
Proof.
  intros Hne. cbv zeta. rewrite finishLogin_mismatch_run by done. simpl.
  repeat split; try done.
  all: unfold heap_upd; by destruct (Nat.eqb_spec module_storage l) as [<- |].
Qed.

(** *** Hoare-style rules for method bodies *)

Lemma triple_bind {A B} (P : World Ext → Prop) (m : M (World Ext) A)
    (k : A → M (World Ext) B) Q' Q R :
  triple P m Q' R → (∀ a, triple (Q' a) (k a) Q R) → triple P (m ≫= k) Q R.
Proof.
  intros Hm Hk s HP. specialize (Hm s HP). js.
  destruct (m s) as [[a | e] s']; [by apply Hk | done].
Qed.

(** A step that keeps the invariant, followed by a body that throws only
    with the invariant in place. *)
Lemma triple_step {A B} (I : World Ext → Prop) (m : M (World Ext) A)
    (k : A → M (World Ext) B) Q :
  stable I m → (∀ a, triple I (k a) Q (λ _, I)) → triple I (m ≫= k) Q (λ _, I).
Proof. intros Hm Hk. by eapply triple_bind. Qed.

Lemma triple_throw {A} (I : World Ext → Prop) (e : JsError) (Q : A → World Ext → Prop) :
  triple I (throw e) Q (λ _, I).
Proof. by intros s HI. Qed.


Lemma stable_snd {A} (I : World Ext → Prop) (m : M (World Ext) A) (w : World Ext) :
  stable I m → I w → I (m w).2.
Proof.
  intros Hm Hw. specialize (Hm w Hw). by destruct (m w) as [[a | e] w'].
Qed.

(** A step that changes nothing on the client keeps every invariant that
    reads the client only. *)
Lemma stable_client {A} (I : World Ext → Prop) (m : M (World Ext) A) :
  client_only I →
  (∀ w, heap (m w).2 = heap w ∧ this (m w).2 = this w) →
  stable I m.
Proof.
  intros HI Hm s Hs. destruct (Hm s) as [Hh Ht].
  destruct (m s) as [[a | e] s']; simpl in *; by eapply HI.
Qed.

Lemma entry_is_client l k v : client_only (entry_is (Ext := Ext) l k v).
Proof. intros w w' Hh _. unfold entry_is. by rewrite Hh. Qed.


Lemma stable_storage_remove_entry l k v l' k' :
  k' ≠ k → stable (entry_is (Ext := Ext) l k v) (storage_remove l' k').
Proof.
  intros Hne w Hw. unfold entry_is in *. simpl. unfold heap_upd.
  destruct (Nat.eqb_spec l' l) as [-> |]; [| done].
  simpl. by rewrite lookup_delete_ne.
Qed.

Lemma stable_set_info_entry l k v d :
  stable (entry_is (Ext := Ext) l k v) (set_info d).
Proof.
  intros w Hw. unfold entry_is in *. simpl. unfold heap_upd.
  by destruct (Nat.eqb_spec (this_storage (this w)) l) as [-> |].
Qed.

Lemma stable_getFileListKey_entry l k v l' jwe :
  getFileListKey_keeps E k →
  stable (entry_is (Ext := Ext) l k v) (do_getFileListKey E l' jwe).
Proof.
  intros Hkeep w Hw. unfold do_getFileListKey, entry_is in *.
  specialize (Hkeep (heap w l') jwe).
  destruct (getFileListKey E (heap w l') jwe) as [r s]. simpl in *.
  assert (engine (heap_upd (heap w) l' s l) !! k = v) as Hgoal.
  { unfold heap_upd. destruct (Nat.eqb_spec l' l) as [-> |]; [| done].
    by rewrite Hkeep. }
  by destruct r.
Qed.

Lemma stable_storage_remove_ref l l' k' :
  stable (storage_is (Ext := Ext) l) (storage_remove l' k').
Proof. by intros w Hw. Qed.



Lemma unchanged_storage_get l k (w : World Ext) :
  heap (storage_get l k w).2 = heap w ∧ this (storage_get l k w).2 = this w.
Proof. done. Qed.

Lemma unchanged_thisStorage (w : World Ext) :
  heap (thisStorage w).2 = heap w ∧ this (thisStorage w).2 = this w.
Proof. done. Qed.

Lemma unchanged_lift {A} (c : Completion A) (w : World Ext) :
  heap (lift c w).2 = heap w ∧ this (lift c w).2 = this w.
Proof. done. Qed.

Lemma unchanged_do_fetch req (w : World Ext) :
  heap (do_fetch E req w).2 = heap w ∧ this (do_fetch E req w).2 = this w.
Proof.
  unfold do_fetch, external. by destruct (fetch E req (ext w)).
Qed.

(** [finishLogin] against an invariant [I] that the removal of [oauthState]
    establishes and every later statement keeps: a throw leaves [I] in place,
    and a return comes after the last statement has run. *)
Lemma finishLogin_triple (P I Q : World Ext → Prop) (code state : Prim) :
  client_only I →
  (∀ w, P w → I (storage_remove module_storage "oauthState" w).2) →
  (∀ d, stable I (set_info d)) →
  (∀ l jwe, stable I (do_getFileListKey E l jwe)) →
  (∀ w, I w → Q (storage_remove (this_storage (this w)) "pkceVerifier" w).2) →
  triple P (finishLogin E code state) (λ _, Q) (λ _, I).
Proof.
  intros Hclient Hremove Hset Hkey Hlast. unfold finishLogin.
  eapply triple_bind with (Q' := λ _, P); [by intros w Hw | intros localState].
  eapply triple_bind with (Q' := λ _, I); [by intros w Hw; apply Hremove | intros _].
  destruct (negb (strict_eq state localState)); [apply triple_throw |].
  apply triple_step; [by apply stable_client, unchanged_thisStorage | intros l].
  apply triple_step; [by apply stable_client, unchanged_storage_get | intros v].
  apply triple_step; [by apply stable_client, unchanged_do_fetch | intros r1].
  apply triple_step; [by apply stable_client, unchanged_lift | intros auth].
  apply triple_step; [by apply stable_client, unchanged_lift | intros tok].
  apply triple_step; [by apply stable_client, unchanged_do_fetch | intros r2].
  apply triple_step; [by apply stable_client, unchanged_lift | intros ui].
  apply triple_step; [by apply stable_client, unchanged_lift | intros tok'].
  apply triple_step; [by apply stable_client, unchanged_lift | intros ui'].
  apply triple_step; [by apply stable_client, unchanged_lift | intros jwe].
  apply triple_step; [by apply stable_client, unchanged_thisStorage | intros l'].
  apply triple_step; [done | intros key].
  apply triple_step; [done | intros _].
  eapply triple_bind with (Q' := λ l w, I w ∧ this_storage (this w) = l);
    [by intros w Hw | intros l''].
  intros w [Hw <-]. by apply Hlast.
Qed.

(** After [finishLogin], however it ends, no [oauthState] is stored. *)
Lemma finishLogin_removes_oauthState (code state : Prim) (w : World Ext) :
  getFileListKey_keeps E "oauthState" →
  entry_is module_storage "oauthState" None (finishLogin E code state w).2.
Proof.
  intros Hkeep.
  set (I := entry_is (Ext := Ext) module_storage "oauthState" None).
  assert (triple (λ _, True) (finishLogin E code state) (λ _, I) (λ _, I)) as Ht.
  { apply finishLogin_triple.
    - apply entry_is_client.
    - intros w' _. subst I. unfold entry_is. simpl.
      apply lookup_delete_eq.
    - intros d. apply stable_set_info_entry.
    - intros l jwe. by apply stable_getFileListKey_entry.
    - intros w' Hw'. by apply stable_snd; [apply stable_storage_remove_entry |]. }
  specialize (Ht w Logic.I).
  by destruct (finishLogin E code state w) as [[[] | e] w'].
Qed.

(** C10: the stored OAuth state is single-use. After a [finishLogin] call,
    whether it passed the state check or not and however it ended, no
    [oauthState] is stored, and a later [finishLogin] with the value that was
    stored before throws [Error('state mismatch')]. *)
Theorem oauthState_single_use (code state code' : Prim) (v : string) (w : World Ext) :
  getFileListKey_keeps E "oauthState" →
  Storage_get "oauthState" (heap w module_storage) = PStr v →
  let w1 := (finishLogin E code state w).2 in
  Storage_get "oauthState" (heap w1 module_storage) = PNull ∧
  (finishLogin E code' (PStr v) w1).1 = Throw (Error "state mismatch").
Proof.
  intros Hkeep Hstored. cbv zeta.
  pose proof (finishLogin_removes_oauthState code state w Hkeep) as Hgone.
  apply Storage_get_None in Hgone.
  split; [done |].
  rewrite finishLogin_mismatch_run; [done | by rewrite Hgone].
Qed.


End UserProperties.

Section ControllerProperties.

Context {Ext : Type} (A : AppEnv Ext).

(** C6: an upload or a download that ends with the cancellation sentinel
    (an error whose message is ['0']) is not a failure: the handler returns,
    its log holds no report to error tracking, no stopped-transfer metric and
    no routing to an error page; the upload handler stores no file (the world
    it leaves is the one of the sync in its [finally] block), and the
    download handler leaves the storage objects and the receiver alone. *)
Theorem cancellation_is_not_a_failure (st : AppState Ext) (type : Prim)
    (file : FileInfo) (err : JsError) (x : Ext) :
  message err = "0" →
  let w := world st in
  let token := prop (this_data (this w)) "access_token" in
  ((length (files (heap w (state_storage st))) < MAX_ARCHIVES_PER_USER A)%nat →
   upload A (archive st) token (ext w) = (Throw err, x) →
   let r := on_upload A type st in
   let sent := {| heap := heap w; this := this w; ext := x;
                  net := net w ++ [NetUpload token] |} in
   r.1 = Normal tt ∧
   log r.2 = (log st ++ cancelled_upload_log (archive st))%list ∧
   quiet (cancelled_upload_log (archive st)) ∧
   world r.2 = (syncFileList (userEnv A) sent).2 ∧
   modal r.2 = modal st) ∧
  (is_Some (transfer st) →
   download A (streamDownload st) (ext w) = (Throw err, x) →
   let r := on_download A file st in
   r.1 = Normal tt ∧
   log r.2 = (log st ++ cancelled_download_log file)%list ∧
   quiet (cancelled_download_log file) ∧
   heap (world r.2) = heap w ∧ this (world r.2) = this w ∧
   transfer r.2 = transfer st).
Proof.
  intros Hmsg. cbv zeta. split.
  - intros Hroom Hup.
    apply Nat.leb_gt in Hroom.
    handler_paths. rewrite Hroom. simpl. rewrite Hup. simpl. rewrite Hmsg. simpl.
    destruct (syncFileList_resolves (userEnv A)
      {| heap := heap (world st); this := this (world st); ext := x;
         net := net (world st) ++ [NetUpload (prop (this_data (this (world st))) "access_token")] |})
      as [c Hc].
    destruct (syncFileList _ _) as [[c' | e] w'] eqn:Hsync; [| done]. simpl.
    repeat split; try done.
    + by rewrite <- !app_assoc.
    + unfold quiet, cancelled_upload_log. by repeat constructor.
  - intros [t Ht] Hdl. handler_paths. rewrite Ht. simpl. rewrite Ht. simpl.
    rewrite Hdl. simpl. rewrite Hmsg. simpl.
    repeat split; try done.
    + by rewrite <- !app_assoc.
    + unfold quiet, cancelled_download_log. by repeat constructor.
Qed.
(** X11: any other failure of the upload is reported: to the console, to error
    tracking, to the stopped-upload metric, and by routing to the error page. *)
Lemma upload_failure_is_reported (st : AppState Ext) (type : Prim)
    (err : JsError) (x : Ext) :
  message err ≠ "0" →
  (length (files (heap (world st) (state_storage st))) < MAX_ARCHIVES_PER_USER A)%nat →
  upload A (archive st) (prop (this_data (this (world st))) "access_token")
    (ext (world st)) = (Throw err, x) →
  log (on_upload A type st).2 =
  (log st ++
   [Render; Metric (startedUpload (archive st)); ConsoleError err;
    RavenCapture err; Metric (stoppedUpload (archive st) err);
    PushState "/error"; Render])%list.
Proof.
  intros Hmsg Hroom Hup. apply Nat.leb_gt in Hroom.
  apply String.eqb_neq in Hmsg.
  handler_paths. rewrite Hroom. simpl. rewrite Hup. simpl. rewrite Hmsg. simpl.
  destruct (syncFileList_resolves (userEnv A)
    {| heap := heap (world st); this := this (world st); ext := x;
       net := net (world st) ++
              [NetUpload (prop (this_data (this (world st))) "access_token")] |})
    as [c Hc].
  destruct (syncFileList _ _) as [[c' | e] w'] eqn:Hsync; [| done]. simpl.
  by rewrite <- !app_assoc.
Qed.

(** X14: so is any failure of the download other than a cancellation or a 404:
    it goes to the console, to error tracking and to the stopped-download
    metric, and the page is routed to the error page. *)
Lemma download_failure_is_reported (st : AppState Ext) (file : FileInfo)
    (err : JsError) (x : Ext) :
  message err ≠ "0" → message err ≠ "404" →
  is_Some (transfer st) →
  download A (streamDownload st) (ext (world st)) = (Throw err, x) →
  log (on_download A file st).2 =
  (log st ++
   [Metric (startedDownload (size file) (ttl file)); Render; ConsoleError err;
    RavenCapture err; Metric (stoppedDownload (size file) err);
    PushState "/error"])%list.
Proof.
  intros Hmsg H404 [t Ht] Hdl.
  apply String.eqb_neq in Hmsg. apply String.eqb_neq in H404.
  handler_paths. rewrite Ht. simpl. rewrite Ht. simpl.
  rewrite Hdl. simpl. rewrite Hmsg. simpl. rewrite H404. simpl.
  by rewrite <- !app_assoc.
Qed.

End ControllerProperties.

(** ** The concrete environment meets the assumptions *)

Section DemoProperties.

Import Demo.

Lemma has_id_app id a b : has_id id (a ++ b) = has_id id a || has_id id b.
Proof. unfold has_id. apply existsb_app. Qed.

Lemma has_id_self f fs : In f fs → has_id (fileId f) fs = true.
Proof.
  intros Hin. unfold has_id. apply existsb_exists.
  exists f. split; [done | apply String.eqb_refl].
Qed.

Lemma has_id_take_over id acc f :
  has_id id acc = true → has_id id (take_over acc f) = true.
Proof.
  intros H. unfold take_over. destruct (has_id (fileId f) acc); [done |].
  by rewrite has_id_app, H.
Qed.

Lemma has_id_merged id remote acc :
  has_id id acc = true → has_id id (fold_left take_over remote acc) = true.
Proof.
  revert acc. induction remote as [| f remote IH]; intros acc H; [done |].
  simpl. by apply IH, has_id_take_over.
Qed.

(** Every remote entry is known after the merge. *)
Lemma merged_covers remote acc f :
  In f remote → has_id (fileId f) (fold_left take_over remote acc) = true.
Proof.
  revert acc. induction remote as [| g remote IH]; intros acc Hin; [done |].
  simpl. destruct Hin as [-> | Hin]; [| by apply IH].
  apply has_id_merged. unfold take_over.
  destruct (has_id (fileId f) acc) eqn:Hknown; [done |].
  rewrite has_id_app. simpl. by rewrite String.eqb_refl, orb_true_r.
Qed.

(** Merging entries that are all known changes nothing. *)
Lemma merged_fixed remote acc :
  (∀ f, In f remote → has_id (fileId f) acc = true) →
  fold_left take_over remote acc = acc.
Proof.
  revert acc. induction remote as [| g remote IH]; intros acc Hall; [done |].
  simpl. unfold take_over at 2. rewrite (Hall g) by by left.
  apply IH. intros f Hin. apply Hall. by right.
Qed.

Lemma merged_twice remote acc :
  fold_left take_over remote (fold_left take_over remote acc) =
  fold_left take_over remote acc.
Proof. apply merged_fixed. intros f Hin. by apply merged_covers. Qed.

Lemma merged_own fs : fold_left take_over fs fs = fs.
Proof. apply merged_fixed. intros f Hin. by apply has_id_self. Qed.

Lemma nothing_unknown_in_own fs :
  existsb (fun f => negb (has_id (fileId f) fs)) fs = false.
Proof.
  apply not_true_is_false. intros (f & Hin & Hf)%existsb_exists.
  by rewrite (has_id_self f fs Hin) in Hf.
Qed.

Lemma outgoing_flags i o d : outgoing (flags i o d) = o.
Proof. by destruct i, o, d. Qed.

Lemma flags_three i o d : has_three_flags (flags i o d).
Proof. exists i, o, d. by destruct i, o, d. Qed.

Lemma demo_merge_contract : merge_contract env.
Proof.
  split.
  - intros l s c1 s1 Hm Hout. simpl in Hm. unfold merge_union in Hm.
    simplify_eq. rewrite outgoing_flags in Hout.
    eexists. split.
    + simpl. unfold merge_union. simpl. rewrite merged_twice. reflexivity.
    + by rewrite outgoing_flags.
  - intros l s c1 s1 Hm. simpl in Hm. unfold merge_union in Hm.
    simplify_eq. eexists. split.
    + simpl. unfold merge_union. simpl. rewrite merged_own. reflexivity.
    + rewrite outgoing_flags. apply nothing_unknown_in_own.
Qed.

Lemma has_id_elem id fs : has_id id fs = true ↔ id ∈ map fileId fs.
Proof.
  unfold has_id. rewrite existsb_exists, list_elem_of_fmap. split.
  - intros (f & Hin & Heq%String.eqb_eq). exists f.
    by rewrite list_elem_of_In.
  - intros (f & -> & Hin). exists f.
    rewrite <- list_elem_of_In. split; [done | apply String.eqb_refl].
Qed.

Lemma demo_merge_reports_missing : merge_reports_missing env.
Proof.
  intros l s f Hin Hmissing. simpl in *. unfold merge_union in *. simpl in *.
  rewrite outgoing_flags. apply existsb_exists. exists f.
  split; [by apply list_elem_of_In |].
  apply negb_true_iff, not_true_is_false. by rewrite has_id_elem.
Qed.

Lemma demo_merge_keeps_user : merge_keeps_user env.
Proof. by intros l s. Qed.

Lemma demo_merge_returns_flags : merge_returns_flags env.
Proof. intros l s. apply flags_three. Qed.

Lemma demo_getFileListKey_keeps k :
  k ≠ "scopedBundlePrivateKey" → getFileListKey_keeps env k.
Proof.
  intros Hne s jwe. simpl. unfold demo_getFileListKey.
  destruct jwe; simpl; try done. by rewrite lookup_delete_ne.
Qed.

(** The spec's merge example: local [{A,B}] and remote [{B,C}]. *)
Example merge_union_example :
  let r := merge_union (Some [file "B"; file "C"]) (store [file "A"; file "B"]) in
  files r.2 = [file "A"; file "B"; file "C"] ∧
  r.1 = flags true true false.
Proof. by vm_compute. Qed.

(** With the remote list unchanged, that merge reports [outgoing] again. *)
Example merge_union_stale_remote :
  let r := merge_union (Some [file "B"; file "C"]) (store [file "A"; file "B"]) in
  (merge_union (Some [file "B"; file "C"]) r.2).1 = flags false true false.
Proof. by vm_compute. Qed.

(** So this merge is not quiet on every second run, and no merge that reads
    [outgoing] as it does and keeps local-only entries is. *)
Lemma demo_merge_not_rerun_quiet : ¬ merge_rerun_quiet env.
Proof.
  intros Hquiet.
  pose proof (rerun_quiet_excludes_local_only env demo_merge_reports_missing
                Hquiet (Some [file "B"; file "C"]) (store [file "A"; file "B"])
                (file "A")) as Hin.
  assert (fileId (file "A") ∈ map fileId [file "B"; file "C"]) as Hbad.
  { apply Hin. vm_compute. apply elem_of_cons. by left. }
  simpl in Hbad. rewrite !elem_of_cons in Hbad.
  destruct Hbad as [? | [? | Hnil]]; [done | done |].
  by apply elem_of_nil in Hnil.
Qed.

End DemoProperties.

(** ** The theorems at concrete inputs *)

Lemma run_eq {S A} (m : M S A) (s : S) : m s = ((m s).1, (m s).2).
Proof. by destruct (m s). Qed.

(** The expired token makes the fetch fail with a 401. *)
Lemma w_expired_fails_with_401 : fails_with_401 Demo.env Demo.w_expired.
Proof. apply merge_input_401. by vm_compute. Qed.

Lemma w_offline_fails_otherwise : ¬ fails_with_401 Demo.env Demo.w_offline.
Proof. rewrite <- merge_input_401. by vm_compute. Qed.

Lemma sync_401_forces_logout_witness :
  (syncFileList Demo.env Demo.w_expired).1 = Normal incoming_only ∧
  is_loggedIn (syncFileList Demo.env Demo.w_expired).2 = false ∧
  this (syncFileList Demo.env Demo.w_offline).2 = this Demo.w_offline.
Proof.
  destruct (sync_401_forces_logout Demo.env Demo.w_expired) as [Hout _].
  destruct (sync_401_forces_logout Demo.env Demo.w_offline) as [_ Hkeep].
  destruct (Hout w_expired_fails_with_401) as (H1 & _ & _ & _ & _ & H2).
  destruct (Hkeep w_offline_fails_otherwise) as [H3 _].
  exact (conj H1 (conj H2 H3)).
Defined.

Lemma finishLogin_state_mismatch_witness :
  (finishLogin Demo.env (PStr "code") (PStr "forged") Demo.w_redirected).1 =
    Throw (Error "state mismatch") ∧
  net (finishLogin Demo.env (PStr "code") (PStr "forged") Demo.w_redirected).2 = [].
Proof.
  assert (PStr "forged" ≠
          Storage_get "oauthState" (heap Demo.w_redirected module_storage))
    as Hne by (vm_compute; discriminate).
  destruct (finishLogin_state_mismatch Demo.env (PStr "code") (PStr "forged")
              Demo.w_redirected Hne) as (H1 & H2 & _).
  exact (conj H1 H2).
Defined.

Lemma sync_anonymous_is_local_merge_witness :
  net (syncFileList Demo.env Demo.w_anonymous).2 = [] ∧
  (syncFileList Demo.env Demo.w_anonymous).1 =
    Normal (Demo.merge_union None (local_store Demo.w_anonymous)).1.
Proof.
  destruct (sync_anonymous_is_local_merge Demo.env Demo.w_anonymous eq_refl)
    as (H1 & _ & H2 & _).
  exact (conj H2 H1).
Defined.

Lemma sync_other_failure_merges_empty_witness :
  (syncFileList Demo.env Demo.w_offline).1 = Normal (Demo.flags false true false) ∧
  files (local_store (syncFileList Demo.env Demo.w_offline).2) =
    [Demo.file "A"; Demo.file "B"].
Proof.
  assert (fetchManifest Demo.env Demo.w_offline =
          (Throw Demo.failed_to_fetch, (fetchManifest Demo.env Demo.w_offline).2))
    as Hfetch by (rewrite (run_eq (fetchManifest Demo.env) Demo.w_offline) at 1;
                  reflexivity).
  assert (message Demo.failed_to_fetch ≠ "401") as Hmsg by discriminate.
  destruct (sync_other_failure_merges_empty Demo.env Demo.w_offline _ _
              eq_refl Hfetch Hmsg) as (H1 & H2 & _).
  split; [exact H1 | by rewrite H2].
Defined.

Lemma sync_outgoing_uploads_best_effort_witness :
  (syncFileList Demo.env Demo.w_readonly).1 = Normal (Demo.flags true true false) ∧
  files (local_store (syncFileList Demo.env Demo.w_readonly).2) =
    [Demo.file "A"; Demo.file "B"; Demo.file "C"] ∧
  net (syncFileList Demo.env Demo.w_readonly).2 =
    [NetGetFileList (PStr "tok");
     NetSetFileList (PStr "tok") (String.list_byte_of_string "ABC")].
Proof.
  pose proof (sync_outgoing_uploads_best_effort Demo.env Demo.w_readonly
                [Demo.file "B"; Demo.file "C"] eq_refl eq_refl eq_refl)
    as (H1 & H2 & _ & H3 & _).
  split; [exact H1 |]. split; [by rewrite H2 | exact H3].
Defined.

Lemma sync_result_shape_witness :
  ∃ c, (syncFileList Demo.env Demo.w_writable).1 = Normal c ∧
       c = (Demo.merge_union (Some [Demo.file "B"; Demo.file "C"])
              (local_store Demo.w_writable)).1 ∧
       has_three_flags c.
Proof.
  destruct (sync_result_shape Demo.env Demo.w_writable demo_merge_returns_flags)
    as (c & Hc & [(H401 & _) | (_ & (list & Hlist & Hmerge) & Hflags)]).
  - exfalso. apply merge_input_401 in H401. discriminate H401.
  - exists c. split; [exact Hc |]. split; [| exact Hflags].
    assert (merge_input Demo.env Demo.w_writable =
            Some (Some [Demo.file "B"; Demo.file "C"])) as Hmi by reflexivity.
    rewrite Hmi in Hlist. injection Hlist as <-. exact Hmerge.
Defined.

(** C9 as claimed fails on the 401 path: the object returned there has
    neither [outgoing] nor [downloadCount]. *)
Lemma sync_401_result_lacks_flags :
  ∃ c, (syncFileList Demo.env Demo.w_expired).1 = Normal c ∧
       c !! "outgoing" = None ∧ c !! "downloadCount" = None ∧
       ¬ has_three_flags c.
Proof.
  exists incoming_only. split; [by vm_compute |].
  split; [done |]. split; [done |].
  intros (i & o & d & _ & Ho & _). discriminate Ho.
Qed.

Lemma sync_twice_settled_witness :
  outgoing (Demo.flags false false false) = false ∧
  files (local_store (syncFileList Demo.env (syncFileList Demo.env Demo.w_writable).2).2) =
    [Demo.file "A"; Demo.file "B"; Demo.file "C"].
Proof.
  set (w1 := (syncFileList Demo.env Demo.w_writable).2).
  set (w2 := (syncFileList Demo.env w1).2).
  assert (syncFileList Demo.env Demo.w_writable =
          (Normal (Demo.flags true true false), w1)) as Hrun1
    by (rewrite (run_eq (syncFileList Demo.env) Demo.w_writable) at 1; reflexivity).
  assert (syncFileList Demo.env w1 = (Normal (Demo.flags false false false), w2))
    as Hrun2 by (rewrite (run_eq (syncFileList Demo.env) w1) at 1; reflexivity).
  assert (merge_input Demo.env Demo.w_writable =
          Some (Some [Demo.file "B"; Demo.file "C"])) as Hmi1 by reflexivity.
  assert (merge_input Demo.env w1 = Some (Some (files (local_store w1))))
    as Hmi2 by reflexivity.
  destruct (sync_twice_settled Demo.env _ _ _ _ _ _ _ demo_merge_contract
              Hrun1 Hrun2 Hmi1 Hmi2 (or_intror eq_refl)) as (H1 & H2 & _).
  split; [exact H1 | by rewrite H2].
Defined.

(** C5 as claimed fails when the upload does not go through: the remote
    manifest stays as it was, and the second call reports [outgoing] again. *)
Lemma sync_twice_outgoing_again :
  let r1 := syncFileList Demo.env Demo.w_readonly in
  let r2 := syncFileList Demo.env r1.2 in
  merge_contract Demo.env ∧
  r1.1 = Normal (Demo.flags true true false) ∧
  ext r1.2 = ext Demo.w_readonly ∧
  r2.1 = Normal (Demo.flags false true false) ∧
  ¬ sync_idempotent_at Demo.env Demo.w_readonly.
Proof.
  cbv zeta.
  set (w1 := (syncFileList Demo.env Demo.w_readonly).2).
  set (w2 := (syncFileList Demo.env w1).2).
  assert ((syncFileList Demo.env w1).1 = Normal (Demo.flags false true false))
    as Hsecond by (by vm_compute).
  split; [apply demo_merge_contract |].
  split; [by vm_compute |]. split; [by vm_compute |]. split; [exact Hsecond |].
  intros Hclaim.
  assert (syncFileList Demo.env w1 = (Normal (Demo.flags false true false), w2))
    as Hrun2 by (rewrite (run_eq (syncFileList Demo.env) w1) at 1; by rewrite Hsecond).
  destruct (Hclaim demo_merge_contract _ _ _ _
              (run_eq (syncFileList Demo.env) Demo.w_readonly) Hrun2)
    as [Hout _].
  discriminate Hout.
Qed.

Lemma oauthState_single_use_witness :
  (finishLogin Demo.env (PStr "again") (PStr "c3RhdGU")
     (finishLogin Demo.env (PStr "code") (PStr "c3RhdGU") Demo.w_redirected).2).1 =
  Throw (Error "state mismatch").
Proof.
  assert (getFileListKey_keeps Demo.env "oauthState") as Hkeep
    by (by apply demo_getFileListKey_keeps).
  destruct (oauthState_single_use Demo.env (PStr "code") (PStr "c3RhdGU")
              (PStr "again") "c3RhdGU" Demo.w_redirected Hkeep eq_refl)
    as [_ H].
  exact H.
Defined.



(** A lost connection, for contrast, is reported. *)
Example broken_upload_is_reported :
  log (on_upload Demo.app_broken (PStr "click") (Demo.app_of Demo.w_writable)).2 =
  [Render;
   Metric (startedUpload (archive (Demo.app_of Demo.w_writable)));
   ConsoleError Demo.failed_to_fetch;
   RavenCapture Demo.failed_to_fetch;
   Metric (stoppedUpload (archive (Demo.app_of Demo.w_writable)) Demo.failed_to_fetch);
   PushState "/error"; Render].
Proof. by vm_compute. Qed.

Lemma cancellation_is_not_a_failure_witness :
  log (on_upload Demo.app_cancel (PStr "click") (Demo.app_of Demo.w_writable)).2 =
    cancelled_upload_log (archive (Demo.app_of Demo.w_writable)) ∧
  log (on_download Demo.app_cancel {| size := 3; ttl := 60 |}
         (Demo.app_of Demo.w_writable)).2 =
    cancelled_download_log {| size := 3; ttl := 60 |}.
Proof.
  destruct (cancellation_is_not_a_failure Demo.app_cancel
              (Demo.app_of Demo.w_writable) (PStr "click")
              {| size := 3; ttl := 60 |} Demo.cancelled
              (ext Demo.w_writable) eq_refl) as [Hup Hdown].
  destruct (Hup ltac:(vm_compute; lia) eq_refl) as (_ & H1 & _).
  destruct (Hdown ltac:(by eexists) eq_refl) as (_ & H2 & _).
  exact (conj H1 H2).
Defined.

(** * Further properties *)

(** ** [app/ui/signupDialog.js] *)

Lemma split_not_nil sep s : split sep s ≠ [].
Proof.
  destruct s as [| c rest]; simpl; [done |].
  destruct (Ascii.eqb c sep); [done |]. by destruct (split sep rest).
Qed.

(** A text without the separator is one part. *)
Lemma split_clean sep s : occurs sep s = false → split sep s = [s].
Proof.
  induction s as [| c rest IH]; simpl; [done |].
  intros [Hc Hrest]%orb_false_iff. rewrite Hc, IH by done. reflexivity.
Qed.

(** The first separator ends the first part. *)
Lemma split_at sep a b :
  occurs sep a = false →
  split sep (a ++ String sep b) = a :: split sep b.
Proof.
  induction a as [| c rest IH]; simpl.
  - intros _. by rewrite Ascii.eqb_refl.
  - intros [Hc Hrest]%orb_false_iff. by rewrite Hc, IH.
Qed.

(** No part holds the separator. *)
Lemma split_parts_clean sep s :
  Forall (fun part => occurs sep part = false) (split sep s).
Proof.
  induction s as [| c rest IH]; simpl; [by repeat constructor |].
  destruct (Ascii.eqb c sep) eqn:Hc; [by constructor |].
  destruct (split sep rest) as [| part parts]; [by repeat constructor; simpl; rewrite Hc |].
  apply Forall_cons in IH as [Hpart Hparts].
  constructor; [| done]. simpl. by rewrite Hc.
Qed.

(** Joining the parts with the separator gives the text back. *)
Lemma split_concat sep s :
  String.concat (String sep EmptyString) (split sep s) = s.
Proof.
  induction s as [| c rest IH]; simpl; [done |].
  destruct (Ascii.eqb_spec c sep) as [-> | Hne].
  - pose proof (split_not_nil sep rest) as Hnil.
    destruct (split sep rest) as [| part parts]; [done |].
    simpl in *. by rewrite IH.
  - pose proof (split_not_nil sep rest) as Hnil.
    destruct (split sep rest) as [| part parts]; [done |].
    destruct parts as [| part' parts]; simpl in *; by rewrite <- IH.
Qed.

Lemma length_pos_nonempty s : (0 <? String.length s)%nat = true ↔ s ≠ EmptyString.
Proof. destruct s; simpl; split; done. Qed.

(** X1: [emailish] accepts exactly the texts [a@b] with [a] and [b] not empty
    and free of ['@']: the empty text, a text without ['@'], with two of
    them, or with nothing before or after it is refused. *)
Theorem emailish_iff (str : string) :
  emailish str = true ↔
  ∃ a b, str = a ++ "@" ++ b ∧ a ≠ "" ∧ b ≠ "" ∧
         occurs at_sign a = false ∧ occurs at_sign b = false.
Proof.
  unfold emailish. split.
  - destruct (negb (truthy (PStr str))); [done |]. cbv zeta.
    intros [Hlen Hall]%andb_true_iff.
    pose proof (split_concat at_sign str) as Hjoin.
    pose proof (split_parts_clean at_sign str) as Hclean.
    destruct (split at_sign str) as [| a [| b [| c parts]]]; try done.
    simpl in Hall. apply andb_true_iff in Hall as [Ha Hb].
    apply andb_true_iff in Hb as [Hb _].
    apply Forall_cons in Hclean as [Hca Hrest].
    apply Forall_cons in Hrest as [Hcb _].
    exists a, b. split; [by rewrite <- Hjoin |].
    by rewrite <- !length_pos_nonempty.
  - intros (a & b & -> & Ha & Hb & Hca & Hcb).
    assert (truthy (PStr (a ++ "@" ++ b)) = true) as ->.
    { simpl. by destruct a. }
    cbv zeta. simpl negb. cbv iota.
    change (a ++ "@" ++ b) with (a ++ String at_sign b).
    rewrite split_at, split_clean by done. simpl.
    apply length_pos_nonempty in Ha, Hb. by rewrite Ha, Hb.
Qed.

(** The edge cases, run. *)
Example emailish_edges :
  emailish "" = false ∧ emailish "ann" = false ∧ emailish "@" = false ∧
  emailish "ann@" = false ∧ emailish "@example.org" = false ∧
  emailish "ann@example@org" = false ∧ emailish "ann@example.org" = true.
Proof. by vm_compute. Qed.

(** ** [app/user.js]: [login], the getters, and how the methods compose *)

Section UserFurther.

Context {Ext : Type} (E : Env Ext) (G : Globals Ext).

Lemma heap_upd_other h l l' s : l ≠ l' → heap_upd h l s l' = h l'.
Proof.
  intros Hne. unfold heap_upd.
  destruct (Nat.eqb_spec l l'); [done | reflexivity].
Qed.

(** What [login] leaves: the address carries the fixed parameters and the
    fresh [state], and that [state] is what is stored. *)
Lemma login_run (email : Prim) (w w' : World Ext) (nav : Navigation) :
  keeps_entry (prepareScopedBundleKey G) "oauthState" →
  keeps_entry (preparePkce G) "oauthState" →
  login E G email w = (Normal nav, w') →
  ∃ st jwk challenge,
    Storage_get "oauthState" (heap w' module_storage) = PStr st ∧
    this w' = this w ∧ net w' = net w ∧
    endpoint nav = authorization_endpoint G ∧
    params nav =
      ([("client_id", PStr (client_id (AUTH_CONFIG E)));
        ("code_challenge", challenge);
        ("code_challenge_method", PStr "S256");
        ("response_type", PStr "code");
        ("scope", PStr ("profile " ++ key_scope G));
        ("state", PStr st);
        ("keys_jwk", jwk)] ++
       (if truthy email then [("email", email)] else []))%list.
Proof.
  intros Hkey Hpkce. login_paths.
  destruct (getRandomValues G 16 (ext w)) as [random x] eqn:Hrandom. simpl.
  set (h1 := heap_upd (heap w) module_storage _).
  pose proof (Hkey (h1 (this_storage (this w)))) as Hk1.
  destruct (prepareScopedBundleKey G (h1 (this_storage (this w))))
    as [[jwk | e] s1]; simpl in *; [| done].
  set (h2 := heap_upd h1 (this_storage (this w)) s1).
  pose proof (Hpkce (h2 (this_storage (this w)))) as Hk2.
  destruct (preparePkce G (h2 (this_storage (this w))))
    as [[challenge | e] s2]; simpl in *; [| done].
  intros [= <- <-]. simpl.
  exists (arrayToB64 G random), jwk, challenge.
  split.
  - assert (engine (heap_upd h2 (this_storage (this w)) s2 module_storage)
            !! "oauthState" = Some (arrayToB64 G random)) as Hstored.
    { unfold heap_upd at 1.
      destruct (Nat.eqb_spec (this_storage (this w)) module_storage) as [Heq | Hne].
      - rewrite Hk2. subst h2. rewrite heap_upd_same, Hk1.
        subst h1. rewrite Heq, heap_upd_same. simpl. apply lookup_insert_eq.
      - subst h2. rewrite heap_upd_other by done.
        subst h1. rewrite heap_upd_same. simpl. apply lookup_insert_eq. }
    unfold Storage_get. by rewrite Hstored.
  - repeat split; try done. by destruct (truthy email).
Qed.

(** X2: the address that [login] assigns carries an [email] parameter exactly
    when the text typed into the signup dialog has the shape of an address,
    and then it is that text: [submitEmail] turns any other text into [null],
    which [login] leaves out. *)
Theorem login_carries_emailish_text (source text : string) (email : Prim)
    (w w' : World Ext) (nav : Navigation) :
  EmitLogin email ∈ submitEmail source text →
  login E G email w = (Normal nav, w') →
  param nav "email" = if emailish text then Some (PStr text) else None.
Proof.
  intros Hemit Hlogin.
  assert (email = if emailish text then PStr text else PNull) as ->.
  { unfold submitEmail in Hemit. rewrite !elem_of_cons in Hemit.
    destruct Hemit as [? | [? | [[= ->] | Hnil]]]; try done.
    by apply elem_of_nil in Hnil. }
  revert Hlogin. login_paths.
  destruct (getRandomValues G 16 (ext w)) as [random x]. simpl.
  destruct (prepareScopedBundleKey G _) as [[jwk | e] s1]; simpl; [| done].
  destruct (preparePkce G _) as [[challenge | e] s2]; simpl; [| done].
  intros [= <- <-]. unfold param. simpl.
  destruct (emailish text) eqn:Hshape; [| done].
  assert (truthy (PStr text) = true) as ->; [| done].
  apply emailish_iff in Hshape as (a & b & -> & Ha & _). simpl. by destruct a.
Qed.

(** The token request is the first thing a [finishLogin] sends once the state
    check has passed. *)
Lemma finishLogin_sends_token_request (code state : Prim) (w : World Ext) :
  state = Storage_get "oauthState" (heap w module_storage) →
  ∃ rest,
    net (finishLogin E code state w).2 =
    (net w ++
     NetFetch
       (Post (token_endpoint (AUTH_CONFIG E))
          [("code", code);
           ("client_id", PStr (client_id (AUTH_CONFIG E)));
           ("code_verifier",
            Storage_get "pkceVerifier"
              (Storage_remove "oauthState" (local_store w)))]) :: rest)%list.
Proof.
  intros ->. finishLogin_paths.
  unfold strict_eq. rewrite bool_decide_eq_true_2 by done. simpl.
  assert (Storage_get "pkceVerifier"
            (heap_upd (heap w) module_storage
               (Storage_remove "oauthState" (heap w module_storage))
               (this_storage (this w))) =
          Storage_get "pkceVerifier" (Storage_remove "oauthState" (local_store w)))
    as ->.
  { unfold heap_upd, local_store.
    destruct (Nat.eqb_spec module_storage (this_storage (this w))) as [<- |];
      [done |].
    unfold Storage_get. simpl. by rewrite lookup_delete_ne. }
  outcomes; eexists; rewrite <- ?app_assoc; simpl; reflexivity.
Qed.

(** X3: the [state] that [login] puts into the address is the one it stored,
    so the [finishLogin] that follows with it passes the state check: it goes
    on to send the token request (given that the key preparation of [login]
    does not write [oauthState]). *)
Theorem login_state_passes_finishLogin (email code : Prim) (w w' : World Ext)
    (nav : Navigation) :
  keeps_entry (prepareScopedBundleKey G) "oauthState" →
  keeps_entry (preparePkce G) "oauthState" →
  login E G email w = (Normal nav, w') →
  ∃ st rest,
    param nav "state" = Some (PStr st) ∧
    Storage_get "oauthState" (heap w' module_storage) = PStr st ∧
    net (finishLogin E code (PStr st) w').2 =
    (net w' ++
     NetFetch
       (Post (token_endpoint (AUTH_CONFIG E))
          [("code", code);
           ("client_id", PStr (client_id (AUTH_CONFIG E)));
           ("code_verifier",
            Storage_get "pkceVerifier"
              (Storage_remove "oauthState" (local_store w')))]) :: rest)%list.
Proof.
  intros Hkey Hpkce Hlogin.
  destruct (login_run email w w' nav Hkey Hpkce Hlogin)
    as (st & jwk & challenge & Hstored & _ & _ & _ & Hparams).
  destruct (finishLogin_sends_token_request code (PStr st) w' (eq_sym Hstored))
    as [rest Hnet].
  exists st, rest. split; [| done].
  unfold param. by rewrite Hparams.
Qed.

(** X4: a [finishLogin] that throws, at the state check or at any step of the
    exchange, has not written the session: [this.data] is what it was. *)
Theorem finishLogin_throw_keeps_session (code state : Prim) (w : World Ext)
    (e : JsError) :
  (finishLogin E code state w).1 = Throw e →
  this (finishLogin E code state w).2 = this w.
Proof.
  finishLogin_paths. outcomes; done.
Qed.

(** X5: a [finishLogin] that returns has sent exactly two requests, the token
    request and then the profile request, and both were answered. The session
    it leaves is the object that the profile response parsed to, with
    [access_token] set to the [access_token] of the parsed token response
    (the token it presented for the profile) and [fileListKey] set to what
    [getFileListKey] made of that response's [keys_jwe]; the same object is
    the persisted user record, and the session counts as logged in exactly
    when that token is truthy. *)
Theorem finishLogin_return_session (code state : Prim) (w : World Ext) :
  (finishLogin E code state w).1 = Normal tt →
  let w' := (finishLogin E code state w).2 in
  let tokenRequest :=
    Post (token_endpoint (AUTH_CONFIG E))
      [("code", code);
       ("client_id", PStr (client_id (AUTH_CONFIG E)));
       ("code_verifier",
        Storage_get "pkceVerifier"
          (Storage_remove "oauthState" (local_store w)))] in
  let store :=
    heap_upd (heap w) module_storage
      (Storage_remove "oauthState" (heap w module_storage))
      (this_storage (this w)) in
  ∃ tokenResponse x1 auth token infoResponse x2 profile keys_jwe key s,
    fetch E tokenRequest (ext w) = (Normal tokenResponse, x1) ∧
    json E tokenResponse = Normal auth ∧
    get_prop auth "access_token" = Normal token ∧
    fetch E (Get (userinfo_endpoint (AUTH_CONFIG E)) token) x1 =
      (Normal infoResponse, x2) ∧
    json E infoResponse = Normal (VObj profile) ∧
    get_prop auth "keys_jwe" = Normal keys_jwe ∧
    getFileListKey E store keys_jwe = (Normal key, s) ∧
    this_data (this w') =
      <["fileListKey" := key]> (<["access_token" := token]> profile) ∧
    user (local_store w') = Some (this_data (this w')) ∧
    is_loggedIn w' = truthy token ∧
    ext w' = x2 ∧
    net w' =
      (net w ++
       [NetFetch tokenRequest;
        NetFetch (Get (userinfo_endpoint (AUTH_CONFIG E)) token)])%list.
Proof.
  cbv zeta. unfold local_store, is_loggedIn. finishLogin_paths.
  destruct (negb (strict_eq state _)); [done |].
  cbn [fst snd heap this ext net this_storage this_data].
  assert (Storage_get "pkceVerifier"
            (heap_upd (heap w) module_storage
               (Storage_remove "oauthState" (heap w module_storage))
               (this_storage (this w))) =
          Storage_get "pkceVerifier"
            (Storage_remove "oauthState" (heap w (this_storage (this w)))))
    as ->.
  { unfold heap_upd.
    destruct (Nat.eqb_spec module_storage (this_storage (this w))) as [<- |];
      [done |].
    unfold Storage_get. simpl. by rewrite lookup_delete_ne. }
  destruct (fetch E _ (ext w)) as [[tokenResponse | e] x1] eqn:Htoken;
    simpl; [| done].
  destruct (json E tokenResponse) as [auth | e] eqn:Hauth; simpl; [| done].
  destruct (get_prop auth "access_token") as [token | e] eqn:Haccess;
    simpl; [| done].
  destruct (fetch E _ x1) as [[infoResponse | e] x2] eqn:Hinfo;
    simpl; [| done].
  destruct (json E infoResponse) as [userInfo | e] eqn:Huser; simpl; [| done].
  destruct (set_prop userInfo "access_token" token) as [o | e] eqn:Hset;
    simpl; [| done].
  destruct (get_prop auth "keys_jwe") as [keys_jwe | e] eqn:Hjwe;
    simpl; [| done].
  destruct (getFileListKey E _ keys_jwe) as [[key | e] s] eqn:Hkey;
    simpl; [| done].
  intros _.
  destruct userInfo as [p | profile]; [by destruct p |].
  simpl in Hset. simplify_eq.
  exists tokenResponse, x1, auth, token, infoResponse, x2, profile, keys_jwe,
    key, s.
  rewrite !heap_upd_same. simpl.
  repeat split; try done.
  - unfold prop. rewrite lookup_insert_ne by done. by rewrite lookup_insert_eq.
  - by rewrite <- app_assoc.
Qed.


(** X6: the session survives a reload of the page. The user that the
    constructor builds from the storage object is the user as it is: after a
    [finishLogin] that returned (so the login is kept), after a [logout] (so
    the logout is kept), and after a [syncFileList] when it was so before,
    on the 401 path as on the others (given that [merge] leaves the user
    record alone). *)
Theorem session_survives_reload (code state : Prim) (w : World Ext) :
  survives_reload (logout w).2 ∧
  ((finishLogin E code state w).1 = Normal tt →
   survives_reload (finishLogin E code state w).2) ∧
  (merge_keeps_user E → survives_reload w →
   survives_reload (syncFileList E w).2).
Proof.
  assert (∀ w' : World Ext, survives_reload (logout w').2) as Hout.
  { intros w'. unfold survives_reload, reloaded, User_new, logout, thisStorage,
      storage_update, set_info. js. simpl. by rewrite heap_upd_same. }
  split; [done |]. split.
  - unfold survives_reload, reloaded, User_new. finishLogin_paths.
    outcomes; try done. intros _. by rewrite !heap_upd_same.
  - intros Hkeep Hw. rewrite syncFileList_run.
    destruct (merge_input E w) as [a |]; simpl; [| apply Hout].
    destruct (after_fetch_frame E w) as [Hh Ht].
    set (w2 := with_local_store _ _).
    assert (survives_reload w2) as H2.
    { unfold survives_reload, reloaded, User_new in *. subst w2.
      unfold with_local_store. cbn [heap this this_storage].
      rewrite heap_upd_same, Hkeep. unfold local_store. by rewrite Hh, Ht. }
    destruct (is_loggedIn w && outgoing _); [| done].
    unfold survives_reload, reloaded, User_new in *.
    destruct (after_upload_frame E w2) as [-> ->]. exact H2.
Qed.

(** X7: what [uploadManifest] has sent, [fetchManifest] reads back: after an
    upload that went through, the next fetch yields the local file list,
    given a cipher and a codec that give back what they were given and a
    remote store that hands out what it took in. *)
Theorem manifest_round_trip (w w1 : World Ext) :
  cipher_round_trip E →
  store_round_trip E →
  codec_round_trip_at E (files (local_store w)) →
  uploadManifest E w = (Normal tt, w1) →
  (fetchManifest E w1).1 = Normal (files (local_store w)) ∧
  (is_loggedIn w = true →
   merge_input E w1 = Some (Some (files (local_store w1)))).
Proof.
  intros Hcipher Hstore Hcodec Hup.
  assert ((fetchManifest E w1).1 = Normal (files (local_store w)) ∧
          local_store w1 = local_store w ∧ this w1 = this w) as (Hfetch & Hs & Ht).
  { revert Hup.
    unfold uploadManifest, fetchManifest, storage_files, bearerToken, info,
      external, local_store. js.
    destruct (JSON_stringify E _) as [text |] eqn:Htext; [| done].
    destruct (blobStream E _) as [source |] eqn:Hsource; [| done].
    destruct (b64ToArray E _) as [key |] eqn:Hkey; [| done].
    destruct (encryptStream E source key) as [cipher |] eqn:Hcipher'; [| done].
    destruct (streamToArrayBuffer cipher) as [encrypted |] eqn:Hencrypted;
      [| done].
    destruct (setFileList E _ encrypted (ext w)) as [[[] |] x'] eqn:Hset;
      [| done].
    intros [= <-]. simpl.
    destruct (Hstore _ _ _ _ Hset) as [x'' ->].
    destruct (Hcipher _ _ _ _ _ Hsource Hcipher' Hencrypted)
      as (source' & decrypted & -> & Hdec & Hplain).
    unfold streamToArrayBuffer in *. subst decrypted.
    cbn [heap this ext net this_data]. rewrite Hkey, Hdec.
    unfold codec_round_trip_at, local_store in Hcodec.
    by rewrite (Hcodec text Htext). }
  split; [done |].
  intros Hin. unfold merge_input.
  assert (is_loggedIn w1 = true) as -> by (unfold is_loggedIn; by rewrite Ht).
  simpl. rewrite Hs.
  by destruct (fetchManifest E w1) as [[l | e] w2]; simpl in *; simplify_eq.
Qed.

End UserFurther.

(** ** The application controller: the transfer handlers, further *)

Section TransferFurther.

Context {Ext : Type} (A : AppEnv Ext).

(** X8: with as many archives stored as a user may have, the upload handler
    starts nothing: it shows the [tooManyArchives] dialog and renders once;
    nothing is sent, no sync runs, and the archive and the transfer are what
    they were. *)
Theorem upload_refused_when_full (st : AppState Ext) (type : Prim) :
  (MAX_ARCHIVES_PER_USER A ≤ length (files (heap (world st) (state_storage st))))%nat →
  let r := on_upload A type st in
  r.1 = Normal tt ∧
  modal r.2 = Some (okDialog "tooManyArchives") ∧
  log r.2 = (log st ++ [Render])%list ∧
  world r.2 = world st ∧ archive r.2 = archive st ∧
  transfer r.2 = transfer st ∧ uploading r.2 = uploading st.
Proof.
  intros Hfull. apply Nat.leb_le in Hfull. cbv zeta.
  handler_paths. rewrite Hfull. done.
Qed.

(** X9: once past that guard the upload handler always returns, however the
    upload ends (completed, cancelled or failed): [state.uploading] is false,
    [state.transfer] is null, the archive is cleared, and the last thing it
    does is to render. *)
Theorem upload_always_cleans_up (st : AppState Ext) (type : Prim) :
  (length (files (heap (world st) (state_storage st))) < MAX_ARCHIVES_PER_USER A)%nat →
  let r := on_upload A type st in
  r.1 = Normal tt ∧
  uploading r.2 = false ∧ transfer r.2 = None ∧
  archive r.2 = Archive_clear (archive st) ∧
  last (log r.2) = Some Render.
Proof.
  intros Hroom. apply Nat.leb_gt in Hroom. cbv zeta.
  handler_paths. rewrite Hroom. simpl.
  destruct (upload A _ _ _) as [[f | e] x]; simpl;
    [destruct (truthy (password (archive st)))
    | destruct (String.eqb (message e) "0")]; simpl.
  all: match goal with
       | |- context [syncFileList (userEnv A) ?w] =>
           destruct (syncFileList_resolves (userEnv A) w) as [c Hc];
           destruct (syncFileList (userEnv A) w) as [[c' | e'] w'];
           [| done]
       end.
  all: simpl; repeat split; try done; by rewrite last_snoc.
Qed.


(** X12: a download that fails with a 404 is routed to the not-found page and
    is not a tracked failure: the handler logs the error to the console,
    drops the receiver and pushes ['/404'], without a report to error
    tracking or a stopped-download metric. *)
Theorem download_404_goes_to_not_found (st : AppState Ext) (file : FileInfo)
    (err : JsError) (x : Ext) :
  is_Some (transfer st) →
  download A (streamDownload st) (ext (world st)) = (Throw err, x) →
  message err = "404" →
  let r := on_download A file st in
  r.1 = Normal tt ∧
  log r.2 =
    (log st ++
     [Metric (startedDownload (size file) (ttl file)); Render;
      ConsoleError err; PushState "/404"])%list ∧
  transfer r.2 = None ∧
  heap (world r.2) = heap (world st).
Proof.
  intros [t Ht] Hdl Hmsg. cbv zeta.
  handler_paths. rewrite Ht. simpl. rewrite Ht. simpl.
  rewrite Hdl. simpl. rewrite Hmsg. simpl.
  repeat split; try done. by rewrite <- !app_assoc.
Qed.

(** X13: a download that completes counts one more download in
    [state.storage] and reports it; the stored files and the receiver are
    untouched, and nothing is routed. *)
Theorem download_success_counts (st : AppState Ext) (file : FileInfo) (x : Ext) :
  is_Some (transfer st) →
  download A (streamDownload st) (ext (world st)) = (Normal tt, x) →
  let r := on_download A file st in
  let l := state_storage st in
  r.1 = Normal tt ∧
  log r.2 =
    (log st ++
     [Metric (startedDownload (size file) (ttl file)); Render;
      Metric (completedDownload (size file))])%list ∧
  totalDownloads (heap (world r.2) l) = (totalDownloads (heap (world st) l) + 1)%Z ∧
  files (heap (world r.2) l) = files (heap (world st) l) ∧
  transfer r.2 = transfer st.
Proof.
  intros [t Ht] Hdl. cbv zeta.
  handler_paths. rewrite Ht. simpl. rewrite Ht. simpl.
  rewrite Hdl. simpl. rewrite !heap_upd_same. simpl.
  repeat split; try done. by rewrite <- !app_assoc.
Qed.

End TransferFurther.

(** ** The application controller: the other handlers *)

Section PageProperties.

Context {Ext : Type} (PE : PageEnv Ext).

Local Abbreviation E := (userEnv (appEnv PE)).
Local Abbreviation G := (globals PE).

(** X15: [checkFiles] always returns, and renders exactly when the sync
    reports [incoming] or [downloadCount]; a sync that ends in the 401 logout
    therefore renders, once, into the logged-out view. *)
Theorem checkFiles_rerenders (st : AppState Ext) :
  let r := checkFiles PE st in
  r.1 = Normal tt ∧
  world r.2 = (syncFileList E (world st)).2 ∧
  (∀ c, (syncFileList E (world st)).1 = Normal c →
     log r.2 =
     (log st ++
      if truthy (prop c "incoming") || truthy (prop c "downloadCount")
      then [Render] else [])%list) ∧
  (fails_with_401 E (world st) →
     log r.2 = (log st ++ [Render])%list ∧ is_loggedIn (world r.2) = false).
Proof.
  cbv zeta.
  assert (∀ c, (syncFileList E (world st)).1 = Normal c →
            (checkFiles PE st).1 = Normal tt ∧
            world (checkFiles PE st).2 = (syncFileList E (world st)).2 ∧
            log (checkFiles PE st).2 =
            (log st ++
             if truthy (prop c "incoming") || truthy (prop c "downloadCount")
             then [Render] else [])%list) as Hrun.
  { intros c. page_paths.
    destruct (syncFileList E (world st)) as [[c' | e] w']; simpl; [| done].
    intros [= ->].
    destruct (truthy (prop c "incoming") || truthy (prop c "downloadCount"));
      simpl; [done |]. by rewrite app_nil_r. }
  destruct (syncFileList_resolves E (world st)) as [c Hc].
  destruct (Hrun c Hc) as (H1 & H2 & H3).
  split; [done |]. split; [done |]. split.
  - intros c' Hc'. by apply Hrun.
  - intros H401. rewrite H2.
    apply merge_input_401 in H401.
    rewrite syncFileList_run, H401 in Hc |- *. simpl in Hc. simplify_eq.
    split; [by rewrite H3 |]. apply logout_run.
Qed.

(** What the getters read in a session without data. *)
Lemma getters_of_empty_session (w : World Ext) :
  this_data (this w) = ∅ →
  (loggedIn w).1 = Normal false ∧
  (bearerToken w).1 = Normal PUndefined ∧
  (name w).1 = Normal PUndefined ∧
  (email w).1 = Normal PUndefined ∧
  (id_ w).1 = Normal PUndefined ∧
  (avatar G w).1 = Normal (assets_get G "user.svg") ∧
  (maxSize G w).1 = Normal (ANON_MAX_FILE_SIZE (LIMITS G)) ∧
  (maxExpireSeconds G w).1 = Normal (ANON_MAX_EXPIRE_SECONDS (LIMITS G)) ∧
  (maxDownloads G w).1 = Normal (ANON_MAX_DOWNLOADS (LIMITS G)).
Proof.
  intros Hdata.
  unfold loggedIn, bearerToken, name, email, id_, avatar, maxSize,
    maxExpireSeconds, maxDownloads, loggedIn, info. js. simpl.
  rewrite Hdata. done.
Qed.

(** X16: the logout handler logs the session out, reports it and routes to
    the start page; from then on the getters of the user read an anonymous
    session: no token, no name, no address, the default avatar, and the
    anonymous limits. *)
Theorem logout_handler_leaves_anonymous (ps : PageState Ext) :
  let r := on_logout ps in
  let w := world (app r.2) in
  r.1 = Normal tt ∧
  events r.2 = (events ps ++ [Tracked loggedOut; Ui (PushState "/")])%list ∧
  w = (logout (world (app ps))).2 ∧
  files (local_store w) = [] ∧
  (loggedIn w).1 = Normal false ∧
  (bearerToken w).1 = Normal PUndefined ∧
  (name w).1 = Normal PUndefined ∧
  (email w).1 = Normal PUndefined ∧
  (id_ w).1 = Normal PUndefined ∧
  (avatar G w).1 = Normal (assets_get G "user.svg") ∧
  (maxSize G w).1 = Normal (ANON_MAX_FILE_SIZE (LIMITS G)) ∧
  (maxExpireSeconds G w).1 = Normal (ANON_MAX_EXPIRE_SECONDS (LIMITS G)) ∧
  (maxDownloads G w).1 = Normal (ANON_MAX_DOWNLOADS (LIMITS G)).
Proof.
  cbv zeta.
  assert ((on_logout ps).1 = Normal tt ∧
          events (on_logout ps).2 =
            (events ps ++ [Tracked loggedOut; Ui (PushState "/")])%list ∧
          world (app (on_logout ps).2) = (logout (world (app ps))).2)
    as (H1 & H2 & H3).
  { page_paths. unfold logout, thisStorage, storage_update, set_info. js. simpl.
    by rewrite <- app_assoc. }
  rewrite H3. destruct (logout_run (world (app ps))) as (Hd & _ & Hf & _).
  split; [done |]. split; [done |]. split; [done |]. split; [done |].
  by apply getters_of_empty_session.
Qed.


(** X17: the signup prompt is for anonymous users only. Without files the
    [addFiles] handler does nothing at all. Otherwise it returns whatever
    [archive.addFiles] does, leaves the user alone and renders once: after
    files that were taken, with the dialog as it was; after a refusal, with
    the signup dialog (and its metric) when the error is [fileTooBig] and the
    limit of the user is below the account limit, and with the error dialog
    otherwise. A logged-in user is at the account limit, so never gets the
    signup dialog. *)
Theorem addFiles_signup_only_when_anonymous (ps : PageState Ext)
    (files : list string) (r0 : Completion unit) (a : Archive) :
  let w := world (app ps) in
  let limit :=
    if is_loggedIn w then MAX_FILE_SIZE (LIMITS G)
    else ANON_MAX_FILE_SIZE (LIMITS G) in
  on_addFiles PE [] ps = (Normal tt, ps) ∧
  (files ≠ [] →
   archive_addFiles PE files limit (archive (app ps)) = (r0, a) →
   let r := on_addFiles PE files ps in
   r.1 = Normal tt ∧ archive (app r.2) = a ∧ world (app r.2) = w ∧
   match r0 with
   | Normal _ =>
       modal (app r.2) = modal (app ps) ∧
       events r.2 = (events ps ++ [Ui Render])%list
   | Throw e =>
       if String.eqb (message e) "fileTooBig"
          && (limit <? MAX_FILE_SIZE (LIMITS G))%Z
       then
         modal (app r.2) = Some (signupDialog "size") ∧
         events r.2 =
           (events ps ++ [Tracked (triggeredSignup "size"); Ui Render])%list
       else
         modal (app r.2) = Some (okDialog (message e)) ∧
         events r.2 = (events ps ++ [Ui Render])%list
   end ∧
   (is_loggedIn w = true →
      events r.2 = (events ps ++ [Ui Render])%list ∧
      modal (app r.2) =
        match r0 with
        | Normal _ => modal (app ps)
        | Throw e => Some (okDialog (message e))
        end) ∧
   (is_loggedIn w = false → r0 = Throw (Error "fileTooBig") →
    (ANON_MAX_FILE_SIZE (LIMITS G) < MAX_FILE_SIZE (LIMITS G))%Z →
      modal (app r.2) = Some (signupDialog "size") ∧
      events r.2 =
        (events ps ++ [Tracked (triggeredSignup "size"); Ui Render])%list)).
Proof.
  cbv zeta. split; [done |].
  intros Hfiles Hadd.
  assert ((length files <? 1)%nat = false) as Hlen.
  { destruct files; [done |]. reflexivity. }
  unfold is_loggedIn in *.
  page_paths. rewrite Hlen. simpl.
  destruct (truthy (prop (this_data (this (world (app ps)))) "access_token"))
    eqn:Hin; simpl; rewrite Hadd; simpl.
  - rewrite Z.ltb_irrefl.
    destruct r0 as [[] | e]; simpl; rewrite ?andb_false_r; simpl.
    + repeat split; done.
    + repeat split; done.
  - destruct r0 as [[] | e]; simpl.
    + repeat split; done.
    + destruct (String.eqb_spec (message e) "fileTooBig") as [Hmsg | Hmsg];
        destruct (Z.ltb_spec (ANON_MAX_FILE_SIZE (LIMITS G))
                    (MAX_FILE_SIZE (LIMITS G))) as [Hlt | Hge];
        simpl; repeat split; try done; try lia;
        intros; simplify_eq; rewrite <- ?app_assoc; try done; try lia.
Qed.

(** X18: the delete handler never throws and never routes to an error page.
    It removes the local entry first, so a remote delete that fails leaves it
    removed; the failure goes to error tracking, and the handler renders
    last either way. *)
Theorem delete_reports_and_renders (ps : PageState Ext) (f : OwnedFile)
    (r0 : Completion unit) (x : Ext) :
  let w := world (app ps) in
  let l := state_storage (app ps) in
  ownedFile_del PE f (ext w) = (r0, x) →
  let r := on_delete PE f ps in
  r.1 = Normal tt ∧
  heap (world (app r.2)) l = Storage_remove (fileId f) (heap w l) ∧
  events r.2 =
    (events ps ++
     [Tracked (deletedUpload f); RemoteDelete f] ++
     match r0 with
     | Normal _ => []
     | Throw e => [Ui (RavenCapture e)]
     end ++ [Ui Render])%list.
Proof.
  cbv zeta. intros Hdel. page_paths. rewrite Hdel.
  destruct r0 as [[] | e]; simpl; rewrite heap_upd_same;
    repeat split; try done; by rewrite <- !app_assoc.
Qed.

(** X19: the authenticate handler routes to the start page exactly when
    [finishLogin] returns, after a sync and the signed-in metric; when
    [finishLogin] throws it routes to the error page and schedules a render,
    without a sync. A [state] that differs from the stored one thus ends on
    the error page with nothing sent and no session written. *)
Theorem authenticate_routes (ps : PageState Ext) (code oauthState : Prim) :
  let w := world (app ps) in
  let r := on_authenticate PE code oauthState ps in
  r.1 = Normal tt ∧
  ((finishLogin E code oauthState w).1 = Normal tt →
     events r.2 = (events ps ++ [Tracked signedIn; ReplaceState "/"])%list ∧
     world (app r.2) = (syncFileList E (finishLogin E code oauthState w).2).2) ∧
  (∀ e, (finishLogin E code oauthState w).1 = Throw e →
     events r.2 = (events ps ++ [ReplaceState "/error"; RenderLater])%list ∧
     world (app r.2) = (finishLogin E code oauthState w).2) ∧
  (oauthState ≠ Storage_get "oauthState" (heap w module_storage) →
     events r.2 = (events ps ++ [ReplaceState "/error"; RenderLater])%list ∧
     net (world (app r.2)) = net w ∧ this (world (app r.2)) = this w).
Proof.
  cbv zeta.
  assert (∀ e, (finishLogin E code oauthState (world (app ps))).1 = Throw e →
            (on_authenticate PE code oauthState ps).1 = Normal tt ∧
            events (on_authenticate PE code oauthState ps).2 =
              (events ps ++ [ReplaceState "/error"; RenderLater])%list ∧
            world (app (on_authenticate PE code oauthState ps).2) =
              (finishLogin E code oauthState (world (app ps))).2) as Hthrow.
  { intros e. page_paths.
    destruct (finishLogin E code oauthState (world (app ps))) as [[[] | e'] w'];
      simpl; [done |].
    intros _. by rewrite <- app_assoc. }
  assert ((finishLogin E code oauthState (world (app ps))).1 = Normal tt →
            (on_authenticate PE code oauthState ps).1 = Normal tt ∧
            events (on_authenticate PE code oauthState ps).2 =
              (events ps ++ [Tracked signedIn; ReplaceState "/"])%list ∧
            world (app (on_authenticate PE code oauthState ps).2) =
              (syncFileList E (finishLogin E code oauthState (world (app ps))).2).2)
    as Hreturn.
  { page_paths.
    destruct (finishLogin E code oauthState (world (app ps))) as [[[] | e'] w'];
      simpl; [| done].
    intros _.
    destruct (syncFileList_resolves E w') as [c Hc].
    destruct (syncFileList E w') as [[c' | e] w'']; simpl; [| done].
    by rewrite <- app_assoc. }
  split.
  { destruct (finishLogin E code oauthState (world (app ps))) as [[[] | e] w'] eqn:Hf.
    - by apply Hreturn.
    - by eapply Hthrow. }
  split; [intros Hr; by apply Hreturn |].
  split; [intros e He; by eapply Hthrow |].
  intros Hne.
  pose proof (finishLogin_mismatch_run E code oauthState (world (app ps)) Hne) as Hrun.
  destruct (Hthrow (Error "state mismatch")) as (_ & H2 & H3);
    [by rewrite Hrun |].
  rewrite H3, Hrun. done.
Qed.

(** X20: the password handler never throws and always ends with
    [state.settingPassword] false and a render. When setting the password
    fails, the error is kept in [state.passwordSetError] and the stored files
    are untouched; when it succeeds, the updated file replaces the stored
    entry of its id, and an error kept from an earlier attempt stays. *)
Theorem password_handler_settles (ps : PageState Ext) (password : Prim)
    (file : OwnedFile) (r0 : Completion OwnedFile) (x : Ext) :
  let w := world (app ps) in
  let l := state_storage (app ps) in
  ownedFile_setPassword PE file password (ext w) = (r0, x) →
  let r := on_password PE password file ps in
  r.1 = Normal tt ∧ settingPassword r.2 = false ∧
  match r0 with
  | Normal file' =>
      passwordSetError r.2 = passwordSetError ps ∧
      heap (world (app r.2)) l = Storage_writeFile file' (heap w l) ∧
      events r.2 =
        (events ps ++
         [Ui Render; RemoteSetPassword file password; Ui Render])%list
  | Throw err =>
      passwordSetError r.2 = Some err ∧
      heap (world (app r.2)) = heap w ∧
      events r.2 =
        (events ps ++
         [Ui Render; RemoteSetPassword file password; Ui (ConsoleError err);
          Ui Render])%list
  end.
Proof.
  cbv zeta. intros Hset. page_paths. rewrite Hset.
  destruct r0 as [file' | err]; simpl; rewrite ?heap_upd_same;
    repeat split; try done; by rewrite <- !app_assoc.
Qed.

(** X21: what the metadata handler does with the receiver's answer. On
    success the receiver becomes [state.transfer] and the page renders. On a
    401 or a 404 the password of the file reference is reset; a file that
    needs no password is routed to ['/404'] without a render, one that needs
    a password renders (to ask again). Any other error is swallowed and the
    page renders. Only success sets [state.transfer]. *)
Theorem getMetadata_outcomes (ps : PageState Ext) (r0 : Completion unit)
    (f : FileRef) (x : Ext) :
  let w := world (app ps) in
  receiver_getMetadata PE (fileInfo ps) (ext w) = (r0, f, x) →
  let r := on_getMetadata PE ps in
  r.1 = Normal tt ∧
  match r0 with
  | Normal _ =>
      transfer (app r.2) = Some Receiver ∧ fileInfo r.2 = f ∧
      events r.2 = (events ps ++ [RemoteMetadata; Ui Render])%list
  | Throw e =>
      transfer (app r.2) = transfer (app ps) ∧
      if String.eqb (message e) "401" || String.eqb (message e) "404"
      then
        fileInfo r.2 =
          {| refPassword := PNull; requiresPassword := requiresPassword f |} ∧
        events r.2 =
          (events ps ++
           [RemoteMetadata;
            if requiresPassword f then Ui Render else Ui (PushState "/404")])%list
      else
        fileInfo r.2 = f ∧
        events r.2 = (events ps ++ [RemoteMetadata; Ui Render])%list
  end.
Proof.
  cbv zeta. intros Hmeta. page_paths. rewrite Hmeta.
  destruct r0 as [[] | e]; simpl.
  - repeat split; try done. by rewrite <- !app_assoc.
  - destruct (String.eqb (message e) "401" || String.eqb (message e) "404");
      simpl.
    + destruct (requiresPassword f); simpl;
        repeat split; try done; by rewrite <- !app_assoc.
    + repeat split; try done. by rewrite <- !app_assoc.
Qed.

(** X22: a download needs the metadata first. On a page without a transfer,
    the download handler runs to its end after a [getMetadata] that
    succeeded; after one that failed there is still no receiver, and the
    download handler throws at once, before anything is tracked or sent. *)
Theorem download_needs_metadata (ps : PageState Ext) (file : FileInfo)
    (r0 : Completion unit) (f : FileRef) (x : Ext) :
  transfer (app ps) = None →
  receiver_getMetadata PE (fileInfo ps) (ext (world (app ps))) = (r0, f, x) →
  let st := app (on_getMetadata PE ps).2 in
  let r := on_download (appEnv PE) file st in
  match r0 with
  | Normal _ => r.1 = Normal tt
  | Throw _ => (∃ e, r.1 = Throw e) ∧ r.2 = st
  end.
Proof.
  cbv zeta. intros Hnone Hmeta. page_paths. rewrite Hmeta.
  destruct r0 as [[] | e]; simpl.
  - handler_paths.
    destruct (download (appEnv PE) _ _) as [[[] | err] x']; simpl; [done |].
    destruct (String.eqb (message err) "0"); simpl; [done |].
    by destruct (String.eqb (message err) "404").
  - destruct (String.eqb (message e) "401" || String.eqb (message e) "404");
      simpl; [destruct (requiresPassword f); simpl |];
      handler_paths; rewrite Hnone; split; try done; by eexists.
Qed.

End PageProperties.

(** ** The further properties at concrete inputs *)

(** The concrete environment meets the assumptions of the round trips. *)
Lemma demo_prepare_keeps :
  keeps_entry (prepareScopedBundleKey DemoPage.demo_globals) "oauthState" ∧
  keeps_entry (preparePkce DemoPage.demo_globals) "oauthState".
Proof. split; intros s; simpl; by rewrite lookup_insert_ne. Qed.

Lemma demo_cipher_round_trip : cipher_round_trip Demo.env.
Proof.
  intros plain key source cipher encrypted Hsource Hcipher Hread.
  simpl in *. unfold streamToArrayBuffer in *. simplify_eq.
  by exists (Normal encrypted), (Normal encrypted).
Qed.

Lemma demo_store_round_trip : store_round_trip Demo.env.
Proof.
  intros token data x x'. simpl.
  unfold Demo.demo_setFileList, Demo.demo_getFileList.
  destruct (Demo.online x) eqn:Hon, (Demo.tokenValid x) eqn:Hvalid,
    (Demo.writable x); simpl; intros [= <-]; simpl.
  by eexists.
Qed.

Lemma demo_codec_round_trip_AB :
  codec_round_trip_at Demo.env [Demo.file "A"; Demo.file "B"].
Proof. intros text [= <-]. reflexivity. Qed.

(** A visitor asks to sign in as [ann@example.org]. *)
Lemma login_ann_run :
  login Demo.env DemoPage.demo_globals (PStr "ann@example.org") Demo.w_anonymous =
  (Normal DemoPage.nav_ann,
   (login Demo.env DemoPage.demo_globals (PStr "ann@example.org")
      Demo.w_anonymous).2).
Proof.
  rewrite (run_eq (login Demo.env DemoPage.demo_globals (PStr "ann@example.org"))
             Demo.w_anonymous) at 1.
  reflexivity.
Qed.

Lemma login_carries_emailish_text_witness :
  param DemoPage.nav_ann "email" = Some (PStr "ann@example.org").
Proof.
  assert (EmitLogin (PStr "ann@example.org") ∈
          submitEmail "button" "ann@example.org") as Hemit.
  { unfold submitEmail. rewrite !elem_of_cons. right. right. left. reflexivity. }
  exact (login_carries_emailish_text Demo.env DemoPage.demo_globals "button"
           "ann@example.org" _ _ _ _ Hemit login_ann_run).
Defined.

Lemma login_state_passes_finishLogin_witness :
  let w' := (login Demo.env DemoPage.demo_globals (PStr "ann@example.org")
               Demo.w_anonymous).2 in
  ∃ st rest,
    param DemoPage.nav_ann "state" = Some (PStr st) ∧
    Storage_get "oauthState" (heap w' module_storage) = PStr st ∧
    net (finishLogin Demo.env (PStr "code") (PStr st) w').2 =
    (net w' ++
     NetFetch
       (Post (token_endpoint (AUTH_CONFIG Demo.env))
          [("code", PStr "code");
           ("client_id", PStr (client_id (AUTH_CONFIG Demo.env)));
           ("code_verifier",
            Storage_get "pkceVerifier"
              (Storage_remove "oauthState" (local_store w')))]) :: rest)%list.
Proof.
  exact (login_state_passes_finishLogin Demo.env DemoPage.demo_globals _
           (PStr "code") _ _ _ (proj1 demo_prepare_keeps)
           (proj2 demo_prepare_keeps) login_ann_run).
Defined.

Lemma finishLogin_throw_keeps_session_witness :
  this (finishLogin Demo.env (PStr "code") (PStr "c3RhdGU")
          Demo.w_redirected_offline).2 = this Demo.w_redirected_offline.
Proof.
  apply (finishLogin_throw_keeps_session Demo.env (PStr "code") (PStr "c3RhdGU")
           Demo.w_redirected_offline Demo.failed_to_fetch).
  by vm_compute.
Defined.

Lemma finishLogin_return_session_witness :
  let w := Demo.w_redirected in
  let w' := (finishLogin Demo.env (PStr "code") (PStr "c3RhdGU") w).2 in
  let tokenRequest :=
    Post (token_endpoint (AUTH_CONFIG Demo.env))
      [("code", PStr "code");
       ("client_id", PStr (client_id (AUTH_CONFIG Demo.env)));
       ("code_verifier",
        Storage_get "pkceVerifier"
          (Storage_remove "oauthState" (local_store w)))] in
  let store :=
    heap_upd (heap w) module_storage
      (Storage_remove "oauthState" (heap w module_storage))
      (this_storage (this w)) in
  ∃ tokenResponse x1 auth token infoResponse x2 profile keys_jwe key s,
    fetch Demo.env tokenRequest (ext w) = (Normal tokenResponse, x1) ∧
    json Demo.env tokenResponse = Normal auth ∧
    get_prop auth "access_token" = Normal token ∧
    fetch Demo.env (Get (userinfo_endpoint (AUTH_CONFIG Demo.env)) token) x1 =
      (Normal infoResponse, x2) ∧
    json Demo.env infoResponse = Normal (VObj profile) ∧
    get_prop auth "keys_jwe" = Normal keys_jwe ∧
    getFileListKey Demo.env store keys_jwe = (Normal key, s) ∧
    this_data (this w') =
      <["fileListKey" := key]> (<["access_token" := token]> profile) ∧
    user (local_store w') = Some (this_data (this w')) ∧
    is_loggedIn w' = truthy token ∧
    ext w' = x2 ∧
    net w' =
      (net w ++
       [NetFetch tokenRequest;
        NetFetch (Get (userinfo_endpoint (AUTH_CONFIG Demo.env)) token)])%list.
Proof.
  apply (finishLogin_return_session Demo.env (PStr "code") (PStr "c3RhdGU")
           Demo.w_redirected).
  by vm_compute.
Defined.

Lemma session_survives_reload_witness :
  let w' := (finishLogin Demo.env (PStr "code") (PStr "c3RhdGU")
               Demo.w_redirected).2 in
  is_loggedIn w' = true ∧
  survives_reload w' ∧ survives_reload (syncFileList Demo.env w').2.
Proof.
  cbv zeta.
  destruct (session_survives_reload Demo.env (PStr "code") (PStr "c3RhdGU")
              Demo.w_redirected) as (_ & Hin & _).
  destruct (session_survives_reload Demo.env (PStr "code") (PStr "c3RhdGU")
              (finishLogin Demo.env (PStr "code") (PStr "c3RhdGU")
                 Demo.w_redirected).2) as (_ & _ & Hsync).
  pose proof (Hin ltac:(by vm_compute)) as Hkept.
  split; [by vm_compute |]. split; [exact Hkept |].
  exact (Hsync demo_merge_keeps_user Hkept).
Defined.

Lemma manifest_round_trip_witness :
  (fetchManifest Demo.env (uploadManifest Demo.env Demo.w_writable).2).1 =
  Normal [Demo.file "A"; Demo.file "B"].
Proof.
  assert (uploadManifest Demo.env Demo.w_writable =
          (Normal tt, (uploadManifest Demo.env Demo.w_writable).2)) as Hup
    by (rewrite (run_eq (uploadManifest Demo.env) Demo.w_writable) at 1;
        reflexivity).
  destruct (manifest_round_trip Demo.env Demo.w_writable _
              demo_cipher_round_trip demo_store_round_trip
              demo_codec_round_trip_AB Hup) as [Hfetch _].
  exact Hfetch.
Defined.

Lemma upload_refused_when_full_witness :
  let r := on_upload DemoPage.app_live (PStr "click")
             (Demo.app_of Demo.w_writable) in
  modal r.2 = Some (okDialog "tooManyArchives") ∧ log r.2 = [Render].
Proof.
  cbv zeta.
  destruct (upload_refused_when_full DemoPage.app_live
              (Demo.app_of Demo.w_writable) (PStr "click")
              ltac:(vm_compute; lia)) as (_ & H1 & H2 & _).
  exact (conj H1 H2).
Defined.

Lemma upload_always_cleans_up_witness :
  let r := on_upload DemoPage.app_live (PStr "click")
             (Demo.app_of Demo.w_anonymous) in
  uploading r.2 = false ∧ transfer r.2 = None ∧ last (log r.2) = Some Render.
Proof.
  cbv zeta.
  destruct (upload_always_cleans_up DemoPage.app_live
              (Demo.app_of Demo.w_anonymous) (PStr "click")
              ltac:(vm_compute; lia)) as (_ & H1 & H2 & _ & H3).
  exact (conj H1 (conj H2 H3)).
Defined.


Lemma download_404_goes_to_not_found_witness :
  let r := on_download DemoPage.app_gone {| size := 3; ttl := 60 |}
             (Demo.app_of Demo.w_writable) in
  log r.2 =
    [Metric (startedDownload 3 60); Render; ConsoleError (Error "404");
     PushState "/404"] ∧
  transfer r.2 = None.
Proof.
  cbv zeta.
  destruct (download_404_goes_to_not_found DemoPage.app_gone
              (Demo.app_of Demo.w_writable) {| size := 3; ttl := 60 |}
              (Error "404") (ext Demo.w_writable)
              ltac:(by eexists) eq_refl eq_refl) as (_ & H1 & H2 & _).
  exact (conj H1 H2).
Defined.

Lemma download_success_counts_witness :
  let r := on_download DemoPage.app_live {| size := 3; ttl := 60 |}
             (Demo.app_of Demo.w_writable) in
  log r.2 =
    [Metric (startedDownload 3 60); Render; Metric (completedDownload 3)] ∧
  totalDownloads (heap (world r.2) 0) = 1%Z.
Proof.
  cbv zeta.
  destruct (download_success_counts DemoPage.app_live
              (Demo.app_of Demo.w_writable) {| size := 3; ttl := 60 |}
              (ext Demo.w_writable) ltac:(by eexists) eq_refl)
    as (_ & H1 & H2 & _).
  exact (conj H1 H2).
Defined.

Lemma upload_failure_is_reported_witness :
  log (on_upload Demo.app_broken (PStr "click")
         (Demo.app_of Demo.w_writable)).2 =
  [Render;
   Metric (startedUpload (archive (Demo.app_of Demo.w_writable)));
   ConsoleError Demo.failed_to_fetch;
   RavenCapture Demo.failed_to_fetch;
   Metric (stoppedUpload (archive (Demo.app_of Demo.w_writable))
             Demo.failed_to_fetch);
   PushState "/error"; Render].
Proof.
  assert (message Demo.failed_to_fetch ≠ "0") as Hmsg by discriminate.
  exact (upload_failure_is_reported Demo.app_broken
           (Demo.app_of Demo.w_writable) (PStr "click") Demo.failed_to_fetch
           (ext Demo.w_writable) Hmsg ltac:(vm_compute; lia) eq_refl).
Defined.

Lemma download_failure_is_reported_witness :
  log (on_download Demo.app_broken {| size := 3; ttl := 60 |}
         (Demo.app_of Demo.w_writable)).2 =
  [Metric (startedDownload 3 60); Render;
   ConsoleError Demo.failed_to_fetch;
   RavenCapture Demo.failed_to_fetch;
   Metric (stoppedDownload 3 Demo.failed_to_fetch);
   PushState "/error"].
Proof.
  assert (message Demo.failed_to_fetch ≠ "0") as Hmsg by discriminate.
  assert (message Demo.failed_to_fetch ≠ "404") as H404 by discriminate.
  exact (download_failure_is_reported Demo.app_broken
           (Demo.app_of Demo.w_writable) {| size := 3; ttl := 60 |}
           Demo.failed_to_fetch (ext Demo.w_writable) Hmsg H404
           ltac:(by eexists) eq_refl).
Defined.

Lemma checkFiles_rerenders_witness :
  let r := checkFiles DemoPage.page (Demo.app_of Demo.w_expired) in
  log r.2 = [Render] ∧ is_loggedIn (world r.2) = false.
Proof.
  cbv zeta.
  destruct (checkFiles_rerenders DemoPage.page (Demo.app_of Demo.w_expired))
    as (_ & _ & _ & H401).
  exact (H401 w_expired_fails_with_401).
Defined.

Lemma addFiles_signup_only_when_anonymous_witness :
  let anonymous :=
    on_addFiles DemoPage.page ["holiday-pictures.zip"]
      (DemoPage.page_of Demo.w_anonymous) in
  let known :=
    on_addFiles DemoPage.page ["holiday-pictures-of-2019.zip"]
      (DemoPage.page_of Demo.w_writable) in
  let taken :=
    on_addFiles DemoPage.page ["a.txt"] (DemoPage.page_of Demo.w_anonymous) in
  (modal (app anonymous.2) = Some (signupDialog "size") ∧
   events anonymous.2 = [Tracked (triggeredSignup "size"); Ui Render]) ∧
  (modal (app known.2) = Some (okDialog "fileTooBig") ∧
   events known.2 = [Ui Render]) ∧
  (taken.1 = Normal tt ∧
   archiveFiles (archive (app taken.2)) = ["notes.txt"; "a.txt"] ∧
   modal (app taken.2) = None ∧ events taken.2 = [Ui Render]).
Proof.
  cbv zeta. split; [| split].
  - destruct (addFiles_signup_only_when_anonymous DemoPage.page
                (DemoPage.page_of Demo.w_anonymous) ["holiday-pictures.zip"]
                (Throw (Error "fileTooBig"))
                (archive (app (DemoPage.page_of Demo.w_anonymous))))
      as [_ Hrun].
    destruct (Hrun ltac:(discriminate) eq_refl) as (_ & _ & _ & _ & _ & Hanon).
    exact (Hanon eq_refl eq_refl ltac:(vm_compute; reflexivity)).
  - destruct (addFiles_signup_only_when_anonymous DemoPage.page
                (DemoPage.page_of Demo.w_writable)
                ["holiday-pictures-of-2019.zip"] (Throw (Error "fileTooBig"))
                (archive (app (DemoPage.page_of Demo.w_writable))))
      as [_ Hrun].
    destruct (Hrun ltac:(discriminate) eq_refl) as (_ & _ & _ & _ & Hknown & _).
    destruct (Hknown eq_refl) as [Hevents Hmodal].
    exact (conj Hmodal Hevents).
  - destruct (addFiles_signup_only_when_anonymous DemoPage.page
                (DemoPage.page_of Demo.w_anonymous) ["a.txt"] (Normal tt)
                {| archiveFiles := ["notes.txt"; "a.txt"]; password := PNull |})
      as [_ Hrun].
    destruct (Hrun ltac:(discriminate) eq_refl)
      as (Hreturn & Harchive & _ & [Hmodal Hevents] & _).
    split; [exact Hreturn |]. split; [by rewrite Harchive |].
    exact (conj Hmodal Hevents).
Defined.

Lemma delete_reports_and_renders_witness :
  let r := on_delete DemoPage.page (Demo.file "A")
             (DemoPage.page_of Demo.w_offline) in
  r.1 = Normal tt ∧
  events r.2 =
    [Tracked (deletedUpload (Demo.file "A")); RemoteDelete (Demo.file "A");
     Ui (RavenCapture Demo.failed_to_fetch); Ui Render].
Proof.
  cbv zeta.
  destruct (delete_reports_and_renders DemoPage.page
              (DemoPage.page_of Demo.w_offline) (Demo.file "A")
              (Throw Demo.failed_to_fetch) (ext Demo.w_offline) eq_refl)
    as (H1 & _ & H2).
  exact (conj H1 H2).
Defined.

Lemma authenticate_routes_witness :
  let forged :=
    on_authenticate DemoPage.page (PStr "code") (PStr "forged")
      (DemoPage.page_of Demo.w_redirected) in
  let honest :=
    on_authenticate DemoPage.page (PStr "code") (PStr "c3RhdGU")
      (DemoPage.page_of Demo.w_redirected) in
  (events forged.2 = [ReplaceState "/error"; RenderLater] ∧
   net (world (app forged.2)) = []) ∧
  events honest.2 = [Tracked signedIn; ReplaceState "/"].
Proof.
  cbv zeta. split.
  - destruct (authenticate_routes DemoPage.page
                (DemoPage.page_of Demo.w_redirected) (PStr "code")
                (PStr "forged")) as (_ & _ & _ & Hforged).
    destruct (Hforged ltac:(vm_compute; discriminate)) as (H1 & H2 & _).
    exact (conj H1 H2).
  - destruct (authenticate_routes DemoPage.page
                (DemoPage.page_of Demo.w_redirected) (PStr "code")
                (PStr "c3RhdGU")) as (_ & Hreturn & _).
    destruct (Hreturn ltac:(by vm_compute)) as [H1 _].
    exact H1.
Defined.

Lemma password_handler_settles_witness :
  let r := on_password DemoPage.page (PStr "secret") (Demo.file "A")
             (DemoPage.page_of Demo.w_offline) in
  settingPassword r.2 = false ∧
  passwordSetError r.2 = Some Demo.failed_to_fetch ∧
  events r.2 =
    [Ui Render; RemoteSetPassword (Demo.file "A") (PStr "secret");
     Ui (ConsoleError Demo.failed_to_fetch); Ui Render].
Proof.
  cbv zeta.
  destruct (password_handler_settles DemoPage.page
              (DemoPage.page_of Demo.w_offline) (PStr "secret") (Demo.file "A")
              (Throw Demo.failed_to_fetch) (ext Demo.w_offline) eq_refl)
    as (_ & H1 & H2 & _ & H3).
  exact (conj H1 (conj H2 H3)).
Defined.

Lemma getMetadata_outcomes_witness :
  let r := on_getMetadata DemoPage.page (DemoPage.page_of Demo.w_expired) in
  refPassword (fileInfo r.2) = PNull ∧
  events r.2 = [RemoteMetadata; Ui (PushState "/404")].
Proof.
  cbv zeta.
  destruct (getMetadata_outcomes DemoPage.page
              (DemoPage.page_of Demo.w_expired) (Throw (Error "401"))
              (fileInfo (DemoPage.page_of Demo.w_expired))
              (ext Demo.w_expired) eq_refl) as (_ & _ & H1 & H2).
  split; [by rewrite H1 | exact H2].
Defined.

Lemma download_needs_metadata_witness :
  let refused := app (on_getMetadata DemoPage.page
                        (DemoPage.fresh_page_of Demo.w_expired)).2 in
  let granted := app (on_getMetadata DemoPage.page
                        (DemoPage.fresh_page_of Demo.w_writable)).2 in
  (∃ e, (on_download DemoPage.app_live {| size := 3; ttl := 60 |} refused).1 =
        Throw e) ∧
  (on_download DemoPage.app_live {| size := 3; ttl := 60 |} granted).1 =
    Normal tt.
Proof.
  cbv zeta. split.
  - destruct (download_needs_metadata DemoPage.page
                (DemoPage.fresh_page_of Demo.w_expired)
                {| size := 3; ttl := 60 |} (Throw (Error "401"))
                (fileInfo (DemoPage.fresh_page_of Demo.w_expired))
                (ext Demo.w_expired) eq_refl eq_refl) as [Hthrow _].
    exact Hthrow.
  - exact (download_needs_metadata DemoPage.page
             (DemoPage.fresh_page_of Demo.w_writable)
             {| size := 3; ttl := 60 |} (Normal tt)
             (fileInfo (DemoPage.fresh_page_of Demo.w_writable))
             (ext Demo.w_writable) eq_refl eq_refl).
Defined.
